(** * ChessGame: the move generator and the winner heuristics

    A shallow embedding of [ChessGame_Backend.py] (classes [Chess] and
    [MyChessGame]) and of the parts of [Chess_game.py] that compute
    ([ChessGameGUI.analyze_position] and the handlers that change the
    board), followed by the properties of the written specification that
    can be stated over it and by further properties of the code.

    Conventions of the embedding:
    - Python integers are [Z];
    - a Python [str] is a [string]; a character is the code point it
      carries, so the alphabet of the model is the code points below 256
      (Latin-1), on which [lower], [ord] and [int] are defined exactly as
      CPython defines them; a statement about the acceptance, the error or
      the case of arbitrary strings is made for ASCII strings, [is_ascii],
      the alphabet the specification gives to positions;
    - a raised exception is the [Raise] outcome of the [result] monad, and
      statements are sequenced with stdpp's monadic notation, in the order
      in which the source evaluates them;
    - a [dict] is a [gmap]. *)

From Stdlib Require Import ZArith Lia Ascii String DecimalString.
From stdpp Require Import base decidable option list strings gmap fin_maps.

Local Open Scope string_scope.
Local Open Scope Z_scope.

(** ** Python primitives *)

Module Py.

(** The exceptions the modelled code can raise.  [NotLatin1] is not a
    Python exception: it is the outcome of [chr] on a code point that
    Python accepts (256 .. 0x10FFFF) but that has no representation in
    the alphabet of the model. *)
Inductive exn : Set :=
| ValueError
| KeyError
| NotLatin1.

Inductive result (A : Type) : Type :=
| Ok (a : A)
| Raise (e : exn).
Global Arguments Ok {A} a.
Global Arguments Raise {A} e.

Global Instance result_ret : MRet result := fun _ a => Ok a.
Global Instance result_bind : MBind result := fun _ _ f m =>
  match m with
  | Ok a => f a
  | Raise e => Raise e
  end.
Global Instance result_fmap : FMap result := fun _ _ f m =>
  match m with
  | Ok a => Ok (f a)
  | Raise e => Raise e
  end.

Definition raises {A} (m : result A) : Prop := ∃ e, m = Raise e.

Global Instance exn_eq_dec : EqDecision exn.
Proof. solve_decision. Defined.

Global Instance result_eq_dec `{EqDecision A} : EqDecision (result A).
Proof. solve_decision. Defined.

(** [ord(c)] *)
Definition ord (c : ascii) : Z := Z.of_N (N_of_ascii c).

(** [chr(n)]: [ValueError] outside [range(0x110000)]. *)
Definition chr (n : Z) : result ascii :=
  if (0 <=? n) && (n <? 256) then Ok (ascii_of_N (Z.to_N n))
  else if (0 <=? n) && (n <? 1114112) then Raise NotLatin1
  else Raise ValueError.

(** [c.lower()] for a one-character string: the upper-case letters of
    Latin-1 are A-Z and U+00C0-U+00DE without the multiplication sign
    U+00D7; each maps to the code point 32 above it.  (Above Latin-1 the
    lower case of one character can be two characters, as for U+0130, and
    [ord] of it raises a [TypeError]: such strings are outside the model.) *)
Definition lower_char (c : ascii) : ascii :=
  let n := ord c in
  if ((65 <=? n) && (n <=? 90)) || ((192 <=? n) && (n <=? 222) && negb (n =? 215))
  then ascii_of_N (Z.to_N (n + 32))
  else c.

(** [s.lower()] *)
Fixpoint lower (s : string) : string :=
  match s with
  | EmptyString => EmptyString
  | String c s' => String (lower_char c) (lower s')
  end.

(** [int(c)] for a one-character string [c]: the only such strings that
    parse are the decimal digits.  (Above Latin-1 Python also reads the
    decimal digits of other scripts, as U+0663: such strings are outside
    the model.) *)
Definition int_char (c : ascii) : result Z :=
  let n := ord c in
  if (48 <=? n) && (n <=? 57) then Ok (n - 48) else Raise ValueError.

(** [str(n)] for an integer. *)
Definition str (n : Z) : string := NilZero.string_of_int (Z.to_int n).

End Py.
Import Py.

(** ** class Chess

    [Chess_game.py] carries a copy of this class, statement for statement;
    both files are embedded by this one module. *)

Module Chess.

(** [PIECE_VALUES] *)
Definition PIECE_VALUES : gmap string Z :=
  <["knight" := 3]> (<["bishop" := 3]> (<["rook" := 5]>
    (<["queen" := 9]> (<["king" := 100]> ∅)))).

(** [d[k]]: a missing key raises [KeyError]. *)
Definition getitem (d : gmap string Z) (k : string) : result Z :=
  match d !! k with
  | Some v => Ok v
  | None => Raise KeyError
  end.

Definition is_valid_position (row col : Z) : bool :=
  (0 <=? row) && (row <=? 7) && (0 <=? col) && (col <=? 7).

(** The pattern is the test [len(position) != 2]: [p0] and [p1] are
    [position[0]] and [position[1]]. *)
Definition position_to_coords (position : string) : result (Z * Z) :=
  match position with
  | String p0 (String p1 EmptyString) =>
      let col := ord (lower_char p0) - ord "a" in
      d ← int_char p1;
      let row := d - 1 in
      Ok (row, col)
  | _ => Raise ValueError
  end.

Definition coords_to_position (row col : Z) : result string :=
  c ← chr (ord "a" + col);
  Ok (String c (str (row + 1))).

(** [range(1, 8)] *)
Definition range_1_8 : list Z := seqZ 1 7.

(** The inner loop of the sliding pieces: walk the steps [i] in order,
    keep the square while it is on the board, [break] at the first one
    that is not. *)
Fixpoint slide (row col dr dc : Z) (steps : list Z) : list (Z * Z) :=
  match steps with
  | [] => []
  | i :: steps' =>
      let new_row := row + dr * i in
      let new_col := col + dc * i in
      if is_valid_position new_row new_col
      then (new_row, new_col) :: slide row col dr dc steps'
      else []
  end.

(** The outer loop: the rays are appended in the order of [directions]. *)
Definition slide_all (row col : Z) (directions : list (Z * Z)) : list (Z * Z) :=
  flat_map (λ '(dr, dc), slide row col dr dc range_1_8) directions.

(** The loop of the knight and of the king: one step per offset, kept
    when it lands on the board. *)
Definition step_all (row col : Z) (offsets : list (Z * Z)) : list (Z * Z) :=
  flat_map (λ '(dr, dc),
    let new_row := row + dr in
    let new_col := col + dc in
    if is_valid_position new_row new_col then [(new_row, new_col)] else [])
    offsets.

Definition rook_directions : list (Z * Z) := [(0, 1); (0, -1); (1, 0); (-1, 0)].
Definition bishop_directions : list (Z * Z) := [(1, 1); (1, -1); (-1, 1); (-1, -1)].
Definition knight_moves : list (Z * Z) :=
  [(-2, -1); (-2, 1); (-1, -2); (-1, 2); (1, -2); (1, 2); (2, -1); (2, 1)].
Definition king_directions : list (Z * Z) :=
  [(-1, -1); (-1, 0); (-1, 1); (0, -1); (0, 1); (1, -1); (1, 0); (1, 1)].

Definition _get_rook_moves (row col : Z) : list (Z * Z) :=
  slide_all row col rook_directions.

Definition _get_bishop_moves (row col : Z) : list (Z * Z) :=
  slide_all row col bishop_directions.

Definition _get_queen_moves (row col : Z) : list (Z * Z) :=
  _get_rook_moves row col ++ _get_bishop_moves row col.

Definition _get_knight_moves (row col : Z) : list (Z * Z) :=
  step_all row col knight_moves.

Definition _get_king_moves (row col : Z) : list (Z * Z) :=
  step_all row col king_directions.

(** The [if]/[elif] chain of [get_piece_moves], on the lower-cased name. *)
Definition dispatch (piece_type : string) (row col : Z) : list (Z * Z) :=
  if decide (piece_type = "rook") then _get_rook_moves row col
  else if decide (piece_type = "bishop") then _get_bishop_moves row col
  else if decide (piece_type = "queen") then _get_queen_moves row col
  else if decide (piece_type = "knight") then _get_knight_moves row col
  else if decide (piece_type = "king") then _get_king_moves row col
  else [].

Definition get_piece_moves (piece_type position color : string)
  : result (list string) :=
  '(row, col) ← position_to_coords position;
  let piece_type := lower piece_type in
  let moves := dispatch piece_type row col in
  mapM (λ '(r, c), coords_to_position r c)
       (filter (λ '(r, c), is_valid_position r c = true) moves).

Definition can_attack (piece_type from_pos target_pos color : string)
  : result bool :=
  possible_moves ← get_piece_moves piece_type from_pos color;
  Ok (bool_decide (target_pos ∈ possible_moves)).

End Chess.

(** ** class MyChessGame *)

Module MyChessGame.
Import Chess.

Record t : Set := mk {
  white_piece : string;
  white_pos : string;
  black_piece : string;
  black_pos : string
}.

Definition __init__ (white_piece white_pos black_piece black_pos : string) : t :=
  {| white_piece := lower white_piece;
     white_pos := lower white_pos;
     black_piece := lower black_piece;
     black_pos := lower black_pos |}.

Definition can_white_attack_black (self : t) : result bool :=
  can_attack self.(white_piece) self.(white_pos) self.(black_pos) "white".

Definition can_black_attack_white (self : t) : result bool :=
  can_attack self.(black_piece) self.(black_pos) self.(white_pos) "black".

Definition get_white_moves (self : t) : result (list string) :=
  get_piece_moves self.(white_piece) self.(white_pos) "white".

Definition get_black_moves (self : t) : result (list string) :=
  get_piece_moves self.(black_piece) self.(black_pos) "black".

Definition determine_winner (self : t) : result string :=
  white_value ← getitem PIECE_VALUES self.(white_piece);
  black_value ← getitem PIECE_VALUES self.(black_piece);
  white_can_attack ← can_white_attack_black self;
  black_can_attack ← can_black_attack_white self;
  if white_can_attack && negb black_can_attack then
    Ok ("white " +:+ self.(white_piece) +:+ " wins")
  else if black_can_attack && negb white_can_attack then
    Ok ("black " +:+ self.(black_piece) +:+ " wins")
  else if white_value >? black_value then
    Ok ("white " +:+ self.(white_piece) +:+ " wins")
  else if black_value >? white_value then
    Ok ("black " +:+ self.(black_piece) +:+ " wins")
  else Ok "draw".

End MyChessGame.

(** ** ChessGameGUI.analyze_position

    Only the computation of the report is modelled: the numbers it prints
    and the line of its WINNER PREDICTION section.  [board_pieces] is the
    dictionary from [(row, col)] to the piece standing there.  Its items
    are visited in the order of [map_to_list], which need not be the
    insertion order of the Python dictionary; the counts and sums below do
    not depend on it. *)

Module ChessGameGUI.
Import Chess.

(** The values of [board_pieces]: [{'piece': ..., 'color': ...}] *)
Record piece_info : Set := mk_info { piece : string; color : string }.

(** The entries of [pieces_by_color]:
    [{'piece': ..., 'position': ..., 'coords': ...}] *)
Record placed : Set := mk_placed {
  p_piece : string;
  p_position : string;
  p_coords : Z * Z
}.

(** The last line of the report. *)
Inductive prediction : Set :=
| WHITE_IS_LIKELY_TO_WIN
| BLACK_IS_LIKELY_TO_WIN
| POSITION_IS_ROUGHLY_EQUAL.

Record report : Set := mk_report {
  white_attacks : Z;
  black_attacks : Z;
  white_value : Z;
  black_value : Z;
  winner : prediction
}.

(** One turn of the loop that fills [pieces_by_color], a dictionary with
    the two keys ['white'] and ['black'] (here: a pair of lists); any
    other colour is a missing key. *)
Definition add_piece (pieces_by_color : list placed * list placed)
    (item : Z * Z * piece_info) : result (list placed * list placed) :=
  let '((row, col), info) := item in
  pos ← coords_to_position row col;
  let entry := mk_placed info.(piece) pos (row, col) in
  if decide (info.(color) = "white") then
    Ok ((pieces_by_color.1 ++ [entry])%list, pieces_by_color.2)
  else if decide (info.(color) = "black") then
    Ok (pieces_by_color.1, (pieces_by_color.2 ++ [entry])%list)
  else Raise KeyError.

Fixpoint group_pieces (pieces_by_color : list placed * list placed)
    (items : list (Z * Z * piece_info)) : result (list placed * list placed) :=
  match items with
  | [] => Ok pieces_by_color
  | item :: items' =>
      acc ← add_piece pieces_by_color item;
      group_pieces acc items'
  end.

(** The inner [for] of the attack analysis: [n] is the running counter. *)
Fixpoint count_targets (attacker : placed) (targets : list placed)
    (side : string) (n : Z) : result Z :=
  match targets with
  | [] => Ok n
  | target :: targets' =>
      hit ← can_attack attacker.(p_piece) attacker.(p_position)
                       target.(p_position) side;
      count_targets attacker targets' side (if hit : bool then n + 1 else n)
  end.

(** The outer [for]. *)
Fixpoint count_attacks (attackers targets : list placed)
    (side : string) (n : Z) : result Z :=
  match attackers with
  | [] => Ok n
  | attacker :: attackers' =>
      n' ← count_targets attacker targets side n;
      count_attacks attackers' targets side n'
  end.

(** [sum(self.chess.PIECE_VALUES[p['piece']] for p in pieces)] *)
Fixpoint total_value (pieces : list placed) (acc : Z) : result Z :=
  match pieces with
  | [] => Ok acc
  | p :: pieces' =>
      v ← getitem PIECE_VALUES p.(p_piece);
      total_value pieces' (acc + v)
  end.

(** [None] is the early [return] on fewer than two pieces. *)
Definition analyze_position (board_pieces : gmap (Z * Z) piece_info)
  : result (option report) :=
  if Z.of_nat (size board_pieces) <? 2 then Ok None else
  pieces_by_color ← group_pieces ([], []) (map_to_list board_pieces);
  let white := pieces_by_color.1 in
  let black := pieces_by_color.2 in
  white_attacks ← count_attacks white black "white" 0;
  black_attacks ← count_attacks black white "black" 0;
  white_value ← total_value white 0;
  black_value ← total_value black 0;
  let winner :=
    if (white_value >? black_value) && (white_attacks >=? black_attacks)
    then WHITE_IS_LIKELY_TO_WIN
    else if (black_value >? white_value) && (black_attacks >=? white_attacks)
    then BLACK_IS_LIKELY_TO_WIN
    else POSITION_IS_ROUGHLY_EQUAL in
  Ok (Some (mk_report white_attacks black_attacks white_value black_value winner)).

End ChessGameGUI.

(** ** ChessGameGUI: the board and the handlers of the mouse

    The attributes of [ChessGameGUI] that its handlers read, and the
    handlers that change [board_pieces], without their calls to Tk: the
    widgets they create, move and destroy (the canvas items, the label
    under the pointer) are not part of the state.  What is kept of these
    calls are the dictionary lookups among their arguments, which can
    raise.  The attributes that are written and never read
    ([selected_piece], [drag_data], [drag_start_pos]) are left out, and
    [hasattr(self, 'drag_start_board_pos')] is [Some].  A handler that
    raises leaves the attributes as it had set them so far. *)

Module GUI.
Import Chess ChessGameGUI.

Record gui : Set := mk_gui {
  board_pieces : gmap (Z * Z) piece_info;
  dragging : bool;
  dragging_piece : option piece_info;
  drag_start_board_pos : option (Z * Z)
}.

(** [None.copy()] raises an [AttributeError]; the other exceptions are
    those of the primitives. *)
Inductive gui_exn : Set :=
| Exn (e : exn)
| AttributeError.

Inductive outcome : Set :=
| Returns (self : gui)
| Raises (e : gui_exn) (self : gui).

Definition __init__ : gui :=
  {| board_pieces := ∅; dragging := false;
     dragging_piece := None; drag_start_board_pos := None |}.

(** [piece_symbols], with the code points of the glyphs. *)
Definition piece_symbols : gmap string (gmap string N) :=
  <["king" := <["white" := 9812%N]> (<["black" := 9818%N]> ∅)]>
  (<["queen" := <["white" := 9813%N]> (<["black" := 9819%N]> ∅)]>
  (<["rook" := <["white" := 9814%N]> (<["black" := 9820%N]> ∅)]>
  (<["bishop" := <["white" := 9815%N]> (<["black" := 9821%N]> ∅)]>
  (<["knight" := <["white" := 9816%N]> (<["black" := 9822%N]> ∅)]> ∅)))).

(** [piece_symbols[piece][color]]; [None] is the [KeyError]. *)
Definition symbol (piece color : string) : option N :=
  by_color ← piece_symbols !! piece; by_color !! color.

(** The pieces and colours [create_piece_buttons] binds to the buttons. *)
Definition pieces : list string := ["queen"; "rook"; "bishop"; "knight"; "king"].
Definition colors : list string := ["white"; "black"].

(** [0 <= row < 8 and 0 <= col < 8] *)
Definition on_board (row col : Z) : bool :=
  (0 <=? row) && (row <? 8) && (0 <=? col) && (col <? 8).

(** The loop of [draw_board] over the pieces. *)
Fixpoint draw_pieces (items : list (Z * Z * piece_info)) : option gui_exn :=
  match items with
  | [] => None
  | (_, piece_info) :: items' =>
      match symbol piece_info.(piece) piece_info.(color) with
      | Some _ => draw_pieces items'
      | None => Some (Exn KeyError)
      end
  end.

Definition draw_board (self : gui) : outcome :=
  match draw_pieces (map_to_list self.(board_pieces)) with
  | None => Returns self
  | Some e => Raises e self
  end.

Definition start_drag_from_button (piece color : string) (self : gui) : outcome :=
  let self :=
    {| board_pieces := self.(board_pieces);
       dragging := true;
       dragging_piece := Some (mk_info piece color);
       drag_start_board_pos := self.(drag_start_board_pos) |} in
  match symbol piece color with
  | Some _ => Returns self
  | None => Raises (Exn KeyError) self
  end.

(** The clean-up of [drop_piece]. *)
Definition end_drag (self : gui) : gui :=
  {| board_pieces := self.(board_pieces);
     dragging := false;
     dragging_piece := None;
     drag_start_board_pos := self.(drag_start_board_pos) |}.

(** [self.board_pieces[square] = self.dragging_piece.copy()] *)
Definition place (square : Z * Z) (self : gui) : outcome :=
  match self.(dragging_piece) with
  | None => Raises AttributeError self
  | Some piece_info =>
      Returns {| board_pieces := <[square := piece_info]> self.(board_pieces);
                 dragging := self.(dragging);
                 dragging_piece := self.(dragging_piece);
                 drag_start_board_pos := self.(drag_start_board_pos) |}
  end.

(** What [drop_piece] reads of the canvas. *)
Record canvas : Set := mk_canvas {
  winfo_rootx : Z;
  winfo_rooty : Z;
  winfo_width : Z;
  winfo_height : Z
}.

Definition drop_piece (x_root y_root : Z) (cv : canvas) (self : gui) : outcome :=
  if negb self.(dragging) then Returns self else
  let canvas_x := x_root - cv.(winfo_rootx) in
  let canvas_y := y_root - cv.(winfo_rooty) in
  if (0 <=? canvas_x) && (canvas_x <=? cv.(winfo_width))
     && (0 <=? canvas_y) && (canvas_y <=? cv.(winfo_height)) then
    let col := canvas_x / 60 in
    let row := canvas_y / 60 in
    if on_board row col then
      match place (row, col) self with
      | Raises e self => Raises e self
      | Returns self =>
          match draw_board self with
          | Raises e self => Raises e self
          | Returns self => Returns (end_drag self)
          end
      end
    else Returns (end_drag self)
  else Returns (end_drag self).

Definition on_canvas_click (x y : Z) (self : gui) : outcome :=
  let col := x / 60 in
  let row := y / 60 in
  if on_board row col then
    match self.(board_pieces) !! (row, col) with
    | Some piece_info =>
        let self :=
          {| board_pieces := delete (row, col) self.(board_pieces);
             dragging := true;
             dragging_piece := Some piece_info;
             drag_start_board_pos := Some (row, col) |} in
        match draw_board self with
        | Raises e self => Raises e self
        | Returns self =>
            match symbol piece_info.(piece) piece_info.(color) with
            | Some _ => Returns self
            | None => Raises (Exn KeyError) self
            end
        end
    | None => Returns self
    end
  else Returns self.

(** The clean-up of [on_release], which ends with [draw_board]. *)
Definition end_release (self : gui) : outcome :=
  draw_board
    {| board_pieces := self.(board_pieces);
       dragging := false;
       dragging_piece := None;
       drag_start_board_pos := None |}.

Definition on_release (x y : Z) (self : gui) : outcome :=
  if negb self.(dragging) then Returns self else
  let col := x / 60 in
  let row := y / 60 in
  if on_board row col then
    match place (row, col) self with
    | Raises e self => Raises e self
    | Returns self => end_release self
    end
  else
    match self.(drag_start_board_pos) with
    | Some start =>
        match place start self with
        | Raises e self => Raises e self
        | Returns self => end_release self
        end
    | None => end_release self
    end.

Definition clear_board (self : gui) : outcome :=
  draw_board
    {| board_pieces := ∅;
       dragging := self.(dragging);
       dragging_piece := self.(dragging_piece);
       drag_start_board_pos := self.(drag_start_board_pos) |}.

(** The events Tk delivers to these handlers. *)
Inductive event : Set :=
| ButtonPress (piece color : string)
| ButtonRelease (x_root y_root : Z) (cv : canvas)
| CanvasPress (x y : Z)
| CanvasRelease (x y : Z)
| ClearClicked.

Definition handle (ev : event) (self : gui) : outcome :=
  match ev with
  | ButtonPress piece color => start_drag_from_button piece color self
  | ButtonRelease x_root y_root cv => drop_piece x_root y_root cv self
  | CanvasPress x y => on_canvas_click x y self
  | CanvasRelease x y => on_release x y self
  | ClearClicked => clear_board self
  end.

(** The main loop: an exception of a handler is reported and the next
    event is handled on the attributes as they are. *)
Fixpoint mainloop (events : list event) (self : gui) : list gui_exn * gui :=
  match events with
  | [] => ([], self)
  | ev :: events' =>
      match handle ev self with
      | Returns self => mainloop events' self
      | Raises e self =>
          let '(reported, self) := mainloop events' self in (e :: reported, self)
      end
  end.

End GUI.

Import Chess.
Import MyChessGame.
Import ChessGameGUI.

(** * The notions of the specification *)

(** ** Squares and algebraic positions *)

(** The 64 squares of the board. *)
Definition all_squares : list (Z * Z) := cprod (seqZ 0 8) (seqZ 0 8).

(** The name [coords_to_position] gives to a square of the board. *)
Definition square_name (sq : Z * Z) : string :=
  String (ascii_of_N (Z.to_N (ord "a" + sq.2))) (str (sq.1 + 1)).

(** An algebraic position, in the words of the specification: two
    characters, a file letter in 'a'..'h', in either case, and a rank digit
    in '1'..'8'. *)
Definition is_file (c : ascii) : bool :=
  (ord "a" <=? ord (lower_char c)) && (ord (lower_char c) <=? ord "h").

Definition is_rank (c : ascii) : bool :=
  (ord "1" <=? ord c) && (ord c <=? ord "8").

Definition is_algebraic (p : string) : bool :=
  match p with
  | String f (String r EmptyString) => is_file f && is_rank r
  | _ => false
  end.

Definition is_decimal_digit (c : ascii) : bool :=
  (ord "0" <=? ord c) && (ord c <=? ord "9").

(** The strings of the specification: every character is an ASCII
    character, a code point below 128.  On these strings [lower], [ord]
    and [int] are what the primitives above say, in the model as in
    CPython; further up, Python's [int] also reads the decimal digits of
    other scripts and [lower] can give more than one character, which the
    alphabet of the model does not hold. *)
Fixpoint is_ascii (s : string) : bool :=
  match s with
  | EmptyString => true
  | String c s' => (ord c <? 128) && is_ascii s'
  end.

(** ** Pieces *)

Definition supported_kinds : list string :=
  ["rook"; "bishop"; "queen"; "knight"; "king"].

(** The squares [get_piece_moves] names: the moves of the piece that pass
    the filter of its list comprehension. *)
Definition on_board_moves (piece_type : string) (row col : Z) : list (Z * Z) :=
  filter (λ '(r, c), is_valid_position r c = true) (dispatch piece_type row col).

(** The geometry of the five kinds, by the distance between two squares
    along the ranks and along the files. *)
Definition reaches (kind : string) (from to : Z * Z) : bool :=
  let dr := Z.abs (to.1 - from.1) in
  let dc := Z.abs (to.2 - from.2) in
  let straight := (dr =? 0) || (dc =? 0) in
  let diagonal := dr =? dc in
  negb ((dr =? 0) && (dc =? 0)) &&
  (if decide (kind = "rook") then straight
   else if decide (kind = "bishop") then diagonal
   else if decide (kind = "queen") then straight || diagonal
   else if decide (kind = "knight") then
     ((dr =? 1) && (dc =? 2)) || ((dr =? 2) && (dc =? 1))
   else if decide (kind = "king") then (dr <=? 1) && (dc <=? 1)
   else false).

(** ** Positions of several pieces *)

(** An item of [board_pieces]. *)
Abbreviation item := (Z * Z * piece_info)%type.

Definition pieces_of (side : string) (board : gmap (Z * Z) piece_info) : list item :=
  filter (λ it : item, it.2.(color) = side) (map_to_list board).

Definition value_of (it : item) : Z := default 0 (PIECE_VALUES !! it.2.(piece)).

Definition material_value (side : string) (board : gmap (Z * Z) piece_info) : Z :=
  foldr Z.add 0 (value_of <$> pieces_of side board).

(** The geometry: [a] attacks [t] when the square of [t] is among the
    squares the piece [a] moves to. *)
Definition attacks (a t : item) : bool :=
  bool_decide (t.1 ∈ on_board_moves (lower a.2.(piece)) a.1.1 a.1.2).

(** The attack pairs: every attacker with every target it attacks. *)
Definition attack_pairs (attackers targets : list item) : list (item * item) :=
  a ← attackers; t ← targets; if attacks a t then [(a, t)] else [].

(** The number of attack pairs of [side] against [other]. *)
Definition attacks_of (side other : string) (board : gmap (Z * Z) piece_info) : Z :=
  Z.of_nat (length (attack_pairs (pieces_of side board) (pieces_of other board))).

(** What the GUI puts on the board: a supported piece of one of the two
    colours on a square of the board. *)
Definition item_ok (it : item) : Prop :=
  is_valid_position it.1.1 it.1.2 = true
  ∧ it.2.(piece) ∈ supported_kinds
  ∧ (it.2.(color) = "white" ∨ it.2.(color) = "black").

Definition board_ok (board : gmap (Z * Z) piece_info) : Prop :=
  map_Forall (λ sq info, item_ok (sq, info)) board.

Global Instance item_ok_dec it : Decision (item_ok it).
Proof. unfold item_ok. apply _. Defined.

Global Instance board_ok_dec board : Decision (board_ok board).
Proof. unfold board_ok. apply _. Defined.

(** The entry of [pieces_by_color] made from an item. *)
Definition entry (it : item) : placed :=
  mk_placed it.2.(piece) (square_name it.1) it.1.

(** Two positions: white rooks on a1 and a2 against a black knight on c5;
    a white knight on c3 and king on a1 against a black bishop on e4 and
    king on h8. *)
Definition two_rooks_and_a_knight : gmap (Z * Z) piece_info :=
  <[(0, 0) := mk_info "rook" "white"]>
  (<[(1, 0) := mk_info "rook" "white"]>
  (<[(4, 2) := mk_info "knight" "black"]> ∅)).

Definition knight_against_bishop : gmap (Z * Z) piece_info :=
  <[(2, 2) := mk_info "knight" "white"]>
  (<[(0, 0) := mk_info "king" "white"]>
  (<[(3, 4) := mk_info "bishop" "black"]>
  (<[(7, 7) := mk_info "king" "black"]> ∅))).

(** ** The states of the GUI *)

(** A piece of the buttons: a supported kind in one of the two colours. *)
Definition piece_ok (info : piece_info) : Prop :=
  info.(piece) ∈ supported_kinds
  ∧ (info.(color) = "white" ∨ info.(color) = "black").

(** What the handlers keep true: the board holds pieces of the buttons on
    squares of the board, a drag carries such a piece, and the square a
    piece was picked up from is a square of the board. *)
Definition gui_ok (self : GUI.gui) : Prop :=
  board_ok self.(GUI.board_pieces)
  ∧ (self.(GUI.dragging) = true → is_Some self.(GUI.dragging_piece))
  ∧ (∀ info, self.(GUI.dragging_piece) = Some info → piece_ok info)
  ∧ (∀ row col, self.(GUI.drag_start_board_pos) = Some (row, col) →
       is_valid_position row col = true).

(** The events of the running program: a press on a button carries the
    piece and the colour the button was created with. *)
Definition from_the_buttons (ev : GUI.event) : Prop :=
  match ev with
  | GUI.ButtonPress piece color => piece ∈ GUI.pieces ∧ color ∈ GUI.colors
  | _ => True
  end.

(** ** Counting moves *)

(** The lengths of the four diagonal rays from a square of the board. *)
Definition diagonal_reach (row col : Z) : Z :=
  Z.min (7 - row) (7 - col) + Z.min (7 - row) col
  + Z.min row (7 - col) + Z.min row col.

(** The neighbours of a square of the board: 3 in a corner, 5 on an edge,
    8 elsewhere. *)
Definition neighbours (row col : Z) : Z :=
  (if decide (row = 0 ∨ row = 7) then 2 else 3)
  * (if decide (col = 0 ∨ col = 7) then 2 else 3) - 1.

(** ** The examples of the source *)

Example rook_a1 :
  Chess.get_piece_moves "rook" "a1" "white"
  = Ok ["b1"; "c1"; "d1"; "e1"; "f1"; "g1"; "h1";
        "a2"; "a3"; "a4"; "a5"; "a6"; "a7"; "a8"].
Proof. vm_compute. reflexivity. Qed.

(** The counts of the written specification. *)
Example move_counts :
  length <$> Chess.get_piece_moves "bishop" "a1" "white" = Ok 7%nat
  ∧ length <$> Chess.get_piece_moves "bishop" "d4" "white" = Ok 13%nat
  ∧ length <$> Chess.get_piece_moves "knight" "a1" "white" = Ok 2%nat
  ∧ length <$> Chess.get_piece_moves "knight" "d4" "white" = Ok 8%nat
  ∧ length <$> Chess.get_piece_moves "king" "a1" "white" = Ok 3%nat
  ∧ length <$> Chess.get_piece_moves "king" "d4" "white" = Ok 8%nat.
Proof. split_and!; vm_compute; reflexivity. Qed.

Example game1 :
  MyChessGame.determine_winner (MyChessGame.__init__ "Queen" "e4" "Knight" "f6")
  = Ok "black knight wins".
Proof. vm_compute. reflexivity. Qed.

Example game2 :
  MyChessGame.determine_winner (MyChessGame.__init__ "Rook" "a1" "Bishop" "h8")
  = Ok "black bishop wins".
Proof. vm_compute. reflexivity. Qed.

Example game3 :
  MyChessGame.determine_winner (MyChessGame.__init__ "Knight" "b1" "Bishop" "c8")
  = Ok "draw".
Proof. vm_compute. reflexivity. Qed.

Example analysis1 :
  ChessGameGUI.analyze_position two_rooks_and_a_knight
  = Ok (Some (ChessGameGUI.mk_report 0 0 10 3 ChessGameGUI.WHITE_IS_LIKELY_TO_WIN)).
Proof. vm_compute. reflexivity. Qed.

(** * Properties *)

(** ** The result monad *)

Lemma bool_decide_eq_true_iff_eq (P : Prop) `{Decision P} (b : bool) :
  (P ↔ b = true) → bool_decide P = b.
Proof.
  intros HP. destruct b.
  - by apply bool_decide_eq_true, HP.
  - apply bool_decide_eq_false. intros HP'%HP. done.
Qed.

Lemma mapM_Ok {A B} (f : A → result B) (g : A → B) (l : list A) :
  Forall (λ a, f a = Ok (g a)) l → mapM f l = Ok (g <$> l).
Proof.
  induction 1 as [|a l Ha _ IH]; [done|].
  cbn. rewrite Ha. cbn. rewrite IH. done.
Qed.

(** ** Squares and their names *)

Lemma is_valid_position_spec row col :
  is_valid_position row col = true ↔ 0 ≤ row ≤ 7 ∧ 0 ≤ col ≤ 7.
Proof. unfold is_valid_position. rewrite !andb_true_iff, !Z.leb_le. lia. Qed.

Lemma elem_of_all_squares row col :
  (row, col) ∈ all_squares ↔ is_valid_position row col = true.
Proof.
  unfold all_squares.
  rewrite list_elem_of_cprod, !elem_of_seqZ, is_valid_position_spec. simpl. lia.
Qed.

(** A boolean property that holds on the 64 squares of [all_squares]
    holds on every valid square: the board is small enough to check such
    properties by evaluation. *)
Lemma board_forall (P : Z → Z → Prop) `{∀ r c, Decision (P r c)} :
  forallb (λ '(r, c), bool_decide (P r c)) all_squares = true →
  ∀ row col, is_valid_position row col = true → P row col.
Proof.
  intros HP row col Hv. rewrite forallb_forall in HP.
  eapply bool_decide_eq_true, (HP (row, col)).
  apply list_elem_of_In, elem_of_all_squares, Hv.
Qed.

Ltac on_the_board := eapply board_forall; vm_compute; reflexivity.

Lemma coords_to_position_valid row col :
  is_valid_position row col = true →
  coords_to_position row col = Ok (square_name (row, col)).
Proof.
  intros [_ Hc]%is_valid_position_spec.
  unfold coords_to_position, chr, square_name. simpl.
  change (ord "a") with 97.
  destruct (Z.leb_spec 0 (97 + col)), (Z.ltb_spec (97 + col) 256); try lia.
  reflexivity.
Qed.

Lemma position_to_coords_square_name row col :
  is_valid_position row col = true →
  position_to_coords (square_name (row, col)) = Ok (row, col).
Proof.
  revert row col. on_the_board.
Qed.

Lemma square_name_inj r1 c1 r2 c2 :
  is_valid_position r1 c1 = true →
  is_valid_position r2 c2 = true →
  square_name (r1, c1) = square_name (r2, c2) → (r1, c1) = (r2, c2).
Proof.
  intros H1 H2 Heq.
  apply position_to_coords_square_name in H1, H2.
  rewrite Heq in H1. congruence.
Qed.

(** ** Algebraic positions *)

Lemma chr_ord c : ascii_of_N (Z.to_N (ord c)) = c.
Proof. unfold ord. rewrite N2Z.id. apply ascii_N_embedding. Qed.

(** A digit is its own lower case, and is the decimal numeral of its value. *)
Lemma rank_digit r :
  is_rank r = true →
  lower_char r = r ∧ str (ord r - 48 - 1 + 1) = String r EmptyString.
Proof.
  unfold is_rank. change (ord "1") with 49. change (ord "8") with 56.
  rewrite andb_true_iff, !Z.leb_le. intros Hr.
  assert (Hc : ord r ∈ seqZ 49 8) by (apply elem_of_seqZ; lia).
  unfold lower_char. pose proof (chr_ord r) as Hrr.
  revert Hc Hrr. clear Hr. generalize (ord r). intros n Hc <-.
  vm_compute in Hc.
  repeat (apply elem_of_cons in Hc as [->|Hc]; [vm_compute; done|]).
  by apply elem_of_nil in Hc.
Qed.

Lemma is_algebraic_coords p :
  is_algebraic p = true →
  ∃ row col, is_valid_position row col = true
    ∧ position_to_coords p = Ok (row, col)
    ∧ square_name (row, col) = lower p.
Proof.
  destruct p as [|f [|r [|]]]; try discriminate. simpl.
  intros [Hf Hr]%andb_true_iff.
  destruct (rank_digit r Hr) as [Hlr Hstr].
  unfold is_file, is_rank in *.
  change (ord "a") with 97 in *. change (ord "h") with 104 in Hf.
  change (ord "1") with 49 in Hr. change (ord "8") with 56 in Hr.
  apply andb_true_iff in Hf as [Hf1 Hf2]. apply andb_true_iff in Hr as [Hr1 Hr2].
  apply Z.leb_le in Hf1, Hf2, Hr1, Hr2.
  exists (ord r - 48 - 1), (ord (lower_char f) - 97). split_and!.
  - apply is_valid_position_spec. lia.
  - unfold int_char.
    destruct (Z.leb_spec 48 (ord r)), (Z.leb_spec (ord r) 57); try lia. done.
  - unfold square_name. simpl. rewrite Hlr, Hstr. change (ord "a") with 97.
    replace (97 + (ord (lower_char f) - 97)) with (ord (lower_char f)) by lia.
    by rewrite chr_ord.
Qed.

Lemma square_name_algebraic row col :
  is_valid_position row col = true → is_algebraic (square_name (row, col)) = true.
Proof. revert row col. on_the_board. Qed.

(** ** The move generator *)

Lemma elem_of_on_board_moves piece_type row col r c :
  (r, c) ∈ on_board_moves piece_type row col ↔
  is_valid_position r c = true ∧ (r, c) ∈ dispatch piece_type row col.
Proof. unfold on_board_moves. by rewrite list_elem_of_filter. Qed.

(** Once the position is parsed nothing can fail: [chr] is only applied to
    the columns of squares of the board. *)
Lemma get_piece_moves_Ok piece_type position color row col :
  position_to_coords position = Ok (row, col) →
  get_piece_moves piece_type position color
  = Ok (square_name <$> on_board_moves (lower piece_type) row col).
Proof.
  intros Hpos. unfold get_piece_moves. rewrite Hpos. cbn.
  apply mapM_Ok, Forall_forall. intros [r c] [Hv _]%elem_of_on_board_moves.
  by apply coords_to_position_valid.
Qed.

(** A name is listed exactly when the square it names is. *)
Lemma elem_of_square_names piece_type row col r c :
  is_valid_position r c = true →
  square_name (r, c) ∈ square_name <$> on_board_moves piece_type row col ↔
  (r, c) ∈ on_board_moves piece_type row col.
Proof.
  intros Hv. rewrite list_elem_of_fmap. split; [|by eexists].
  intros ([r' c'] & Heq & Hin).
  pose proof Hin as [Hv' _]%elem_of_on_board_moves.
  by rewrite (square_name_inj r c r' c' Hv Hv' Heq).
Qed.

(** *** Where the generated squares lie *)

Ltac not_listed := eapply bool_decide_eq_false_1; vm_compute; reflexivity.
Ltac listed := eapply bool_decide_eq_true_1; vm_compute; reflexivity.

Section rays.
(** The square the piece stands on, anywhere in the plane. *)
Variables row col : Z.

Section one_ray.
Variables dr dc : Z.

(** A ray is made of steps of its direction that land on the board. *)
Lemma elem_of_slide steps sq :
  sq ∈ slide row col dr dc steps →
  ∃ i, i ∈ steps ∧ sq = (row + dr * i, col + dc * i)
    ∧ is_valid_position sq.1 sq.2 = true.
Proof.
  induction steps as [|i steps IH]; simpl; [by intros ?%elem_of_nil|].
  destruct (is_valid_position (row + dr * i) (col + dc * i)) eqn:Hv;
    [|by intros ?%elem_of_nil].
  intros [->|Hin]%elem_of_cons.
  - exists i. split_and!; [left | done | done].
  - destruct (IH Hin) as (j & Hj & -> & Hvj). exists j.
    split_and!; [by right | done | done].
Qed.

(** If the first [k] steps of a ray stay on the board and the next one,
    when there is one, leaves it, the ray is made of these [k] steps. *)
Lemma slide_seqZ (s k n : Z) :
  0 ≤ k ≤ n →
  (∀ i, s ≤ i < s + k → is_valid_position (row + dr * i) (col + dc * i) = true) →
  (k < n → is_valid_position (row + dr * (s + k)) (col + dc * (s + k)) = false) →
  slide row col dr dc (seqZ s n)
  = (λ i, (row + dr * i, col + dc * i)) <$> seqZ s k.
Proof.
  intros Hk. remember (Z.to_nat k) as m eqn:Hm.
  revert s k n Hk Hm. induction m as [|m IH]; intros s k n Hk Hm Hin Hout.
  - assert (k = 0) as -> by lia. simpl.
    destruct (decide (n = 0)) as [->|Hn]; [done|].
    rewrite (seqZ_cons s n) by lia. simpl.
    rewrite Z.add_0_r in Hout. by rewrite Hout by lia.
  - rewrite (seqZ_cons s n), (seqZ_cons s k) by lia. simpl.
    rewrite Hin by lia. f_equal.
    apply IH; [lia..| |].
    + intros i Hi. apply Hin. lia.
    + intros Hlt. replace (Z.succ s + Z.pred k) with (s + k) by lia.
      apply Hout. lia.
Qed.

Lemma slide_length (k : Z) :
  0 ≤ k ≤ 7 →
  (∀ i, 1 ≤ i ≤ k → is_valid_position (row + dr * i) (col + dc * i) = true) →
  (k < 7 → is_valid_position (row + dr * (1 + k)) (col + dc * (1 + k)) = false) →
  length (slide row col dr dc range_1_8) = Z.to_nat k.
Proof.
  intros Hk Hin Hout. unfold range_1_8.
  rewrite (slide_seqZ 1 k 7), length_fmap, length_seqZ; [done..| |done].
  intros i Hi. apply Hin. lia.
Qed.

End one_ray.

Lemma elem_of_slide_all directions sq :
  sq ∈ slide_all row col directions →
  ∃ dr dc i, (dr, dc) ∈ directions ∧ 1 ≤ i ≤ 7
    ∧ sq = (row + dr * i, col + dc * i)
    ∧ is_valid_position sq.1 sq.2 = true.
Proof.
  unfold slide_all. rewrite list_elem_of_In, in_flat_map.
  intros ([dr dc] & Hd%list_elem_of_In & Hin%list_elem_of_In).
  apply elem_of_slide in Hin as (i & Hi & -> & Hv).
  apply elem_of_seqZ in Hi. exists dr, dc, i. split_and!; [done|lia..|done|done].
Qed.

Lemma elem_of_step_all offsets sq :
  sq ∈ step_all row col offsets →
  ∃ dr dc, (dr, dc) ∈ offsets ∧ sq = (row + dr, col + dc)
    ∧ is_valid_position sq.1 sq.2 = true.
Proof.
  unfold step_all. rewrite list_elem_of_In, in_flat_map.
  intros ([dr dc] & Hd%list_elem_of_In & Hin%list_elem_of_In).
  exists dr, dc. split; [done|].
  destruct (is_valid_position (row + dr) (col + dc)) eqn:Hv;
    [|by apply elem_of_nil in Hin].
  by apply list_elem_of_singleton in Hin as ->.
Qed.

(** No piece moves to the square it stands on, wherever that is: no
    table of directions holds the null offset. *)
Lemma slide_all_not_start directions :
  (0, 0) ∉ directions → (row, col) ∉ slide_all row col directions.
Proof.
  intros Hd (dr & dc & i & Hin & Hi & [= Hr Hc] & _)%elem_of_slide_all.
  assert (dr = 0) as -> by nia. assert (dc = 0) as -> by nia. done.
Qed.

Lemma step_all_not_start offsets :
  (0, 0) ∉ offsets → (row, col) ∉ step_all row col offsets.
Proof.
  intros Hd (dr & dc & Hin & [= Hr Hc] & _)%elem_of_step_all.
  assert (dr = 0) as -> by lia. assert (dc = 0) as -> by lia. done.
Qed.

Lemma dispatch_not_start piece_type :
  (row, col) ∉ dispatch piece_type row col.
Proof.
  unfold dispatch. repeat case_decide.
  - apply slide_all_not_start. not_listed.
  - apply slide_all_not_start. not_listed.
  - unfold _get_queen_moves. rewrite not_elem_of_app.
    split; apply slide_all_not_start; not_listed.
  - apply step_all_not_start. not_listed.
  - apply step_all_not_start. not_listed.
  - apply not_elem_of_nil.
Qed.

(** The filter of [get_piece_moves] removes nothing: the generators only
    produce squares of the board. *)
Lemma dispatch_valid piece_type r c :
  (r, c) ∈ dispatch piece_type row col → is_valid_position r c = true.
Proof.
  unfold dispatch, _get_queen_moves, _get_rook_moves, _get_bishop_moves,
    _get_knight_moves, _get_king_moves.
  repeat case_decide; rewrite ?elem_of_app; intros Hin;
    repeat match goal with
    | H : _ ∨ _ |- _ => destruct H
    | H : _ ∈ slide_all _ _ _ |- _ =>
        apply elem_of_slide_all in H as (? & ? & ? & _ & _ & _ & ?)
    | H : _ ∈ step_all _ _ _ |- _ =>
        apply elem_of_step_all in H as (? & ? & _ & _ & ?)
    | H : _ ∈ [] |- _ => by apply elem_of_nil in H
    end; done.
Qed.

End rays.

Lemma is_valid_position_false row col :
  is_valid_position row col = false ↔ ¬ (0 ≤ row ≤ 7 ∧ 0 ≤ col ≤ 7).
Proof. by rewrite <- is_valid_position_spec, not_true_iff_false. Qed.

(** The four rays of a rook have [7 - col], [col], [7 - row] and [row]
    squares. *)
Lemma rook_moves_length row col :
  is_valid_position row col = true →
  length (_get_rook_moves row col) = 14%nat.
Proof.
  intros Hv%is_valid_position_spec.
  unfold _get_rook_moves, slide_all, rook_directions. cbn [flat_map].
  rewrite !length_app.
  rewrite (slide_length row col 0 1 (7 - col)),
          (slide_length row col 0 (-1) col),
          (slide_length row col 1 0 (7 - row)),
          (slide_length row col (-1) 0 row); simpl; try lia;
    intros; first [apply is_valid_position_spec | apply is_valid_position_false]; lia.
Qed.

Lemma filter_Forall {A} (P : A → Prop) `{∀ x, Decision (P x)} (l : list A) :
  Forall P l → filter P l = l.
Proof.
  induction 1 as [|x l Hx _ IH]; [done|].
  by rewrite filter_cons_True, IH.
Qed.

Lemma on_board_moves_dispatch piece_type row col :
  on_board_moves piece_type row col = dispatch piece_type row col.
Proof.
  unfold on_board_moves. apply filter_Forall.
  apply Forall_forall. intros [r c]. apply dispatch_valid.
Qed.

(** *** No square is generated twice *)

Lemma dispatch_NoDup piece_type row col :
  is_valid_position row col = true → NoDup (dispatch piece_type row col).
Proof.
  unfold dispatch. repeat case_decide; revert row col;
    first [on_the_board | intros; apply NoDup_nil_2].
Qed.

Lemma on_board_moves_NoDup piece_type row col :
  is_valid_position row col = true → NoDup (on_board_moves piece_type row col).
Proof. intros Hv. by apply NoDup_filter, dispatch_NoDup. Qed.

Lemma square_names_NoDup piece_type row col :
  is_valid_position row col = true →
  NoDup (square_name <$> on_board_moves piece_type row col).
Proof.
  intros Hv. apply NoDup_fmap_2_strong; [|by apply on_board_moves_NoDup].
  intros [r1 c1] [r2 c2] [H1 _]%elem_of_on_board_moves [H2 _]%elem_of_on_board_moves.
  by apply square_name_inj.
Qed.

(** *** The geometry of the moves *)

Lemma board_forall2 (P : Z → Z → Z → Z → Prop) `{∀ r c r' c', Decision (P r c r' c')} :
  forallb (λ '(r, c), forallb (λ '(r', c'), bool_decide (P r c r' c')) all_squares)
    all_squares = true →
  ∀ row col r c, is_valid_position row col = true →
    is_valid_position r c = true → P row col r c.
Proof.
  intros HP row col r c Hv Hv'. rewrite forallb_forall in HP.
  apply elem_of_all_squares, list_elem_of_In, HP in Hv. cbn beta iota in Hv.
  rewrite forallb_forall in Hv.
  eapply bool_decide_eq_true, (Hv (r, c)).
  apply list_elem_of_In, elem_of_all_squares, Hv'.
Qed.

(** On the board, the generated moves are the squares the piece reaches on
    an empty board. *)
Lemma dispatch_reaches kind row col r c :
  is_valid_position row col = true →
  is_valid_position r c = true →
  (r, c) ∈ dispatch kind row col ↔ reaches kind (row, col) (r, c) = true.
Proof.
  unfold dispatch, reaches.
  repeat case_decide; revert row col r c;
    eapply board_forall2; vm_compute; reflexivity.
Qed.

(** On an empty board an attack can always be returned. *)
Lemma reaches_sym kind from to : reaches kind from to = reaches kind to from.
Proof.
  unfold reaches.
  replace (to.1 - from.1) with (- (from.1 - to.1)) by lia.
  replace (to.2 - from.2) with (- (from.2 - to.2)) by lia.
  by rewrite !Z.abs_opp.
Qed.

(** *** The supported kinds *)

Lemma dispatch_unsupported kind row col :
  kind ∉ supported_kinds → dispatch kind row col = [].
Proof.
  intros Hk. unfold dispatch.
  repeat case_decide; try done; subst; destruct Hk; compute_done.
Qed.

(** The keys of [PIECE_VALUES] are the supported kinds. *)
Lemma PIECE_VALUES_supported kind :
  is_Some (PIECE_VALUES !! kind) ↔ kind ∈ supported_kinds.
Proof.
  unfold PIECE_VALUES, supported_kinds.
  rewrite !lookup_insert_is_Some', lookup_empty, !elem_of_cons, elem_of_nil.
  pose proof (@is_Some_None Z). intuition congruence.
Qed.

Lemma getitem_supported kind :
  kind ∈ supported_kinds → ∃ v, getitem PIECE_VALUES kind = Ok v ∧ PIECE_VALUES !! kind = Some v.
Proof.
  intros [v Hv]%PIECE_VALUES_supported. exists v. unfold getitem. by rewrite Hv.
Qed.

Lemma getitem_unsupported kind :
  kind ∉ supported_kinds → getitem PIECE_VALUES kind = Raise KeyError.
Proof.
  intros Hk. unfold getitem.
  destruct (PIECE_VALUES !! kind) as [v|] eqn:Hv; [|done].
  destruct Hk. apply PIECE_VALUES_supported. by exists v.
Qed.

(** * The claims of the specification *)

(** ** Coordinate conversion *)

Lemma int_char_digit c :
  int_char c = if is_decimal_digit c then Ok (ord c - 48) else Raise ValueError.
Proof. reflexivity. Qed.

(** A letter whose lower case is among 'a'..'h' and a digit among '1'..'8'
    are ASCII characters. *)
Lemma is_algebraic_ascii p : is_algebraic p = true → is_ascii p = true.
Proof.
  assert (Hfile : ∀ c, is_file c = true → (ord c <? 128) = true)
    by (intros [[] [] [] [] [] [] [] []]; vm_compute; congruence).
  assert (Hrank : ∀ c, is_rank c = true → (ord c <? 128) = true)
    by (intros [[] [] [] [] [] [] [] []]; vm_compute; congruence).
  destruct p as [|f [|r [|c p]]]; try done. simpl.
  intros [Hf Hr]%andb_true_iff.
  by rewrite (Hfile f Hf), (Hrank r Hr).
Qed.

(** C2, as stated, fails: the string "z9" is not a position of the board
    (no file 'z', no rank '9'), yet the conversion accepts it and returns
    the off-board coordinates (8, 25). *)
Lemma position_to_coords_accepts_z9 :
  is_algebraic "z9" = false
  ∧ position_to_coords "z9" = Ok (8, 25)
  ∧ ¬ raises (position_to_coords "z9")
  ∧ is_valid_position 8 25 = false.
Proof. split_and!; [done..| |done]. by intros [e ?]. Qed.

(** C2, amended: on an ASCII string, [position_to_coords] raises exactly
    when the string is not two characters long or its second character is
    not one of the digits '0'..'9', and what it raises is a [ValueError];
    the file letter and the range of the rank are never checked.  Every
    well-formed algebraic position is an ASCII string, is accepted and
    denotes a square of the board. *)
Theorem position_to_coords_raises (p : string) :
  (is_ascii p = true →
   (raises (position_to_coords p) ↔
      String.length p ≠ 2%nat
      ∨ ∃ f r, p = String f (String r EmptyString) ∧ is_decimal_digit r = false)
   ∧ (∀ e, position_to_coords p = Raise e → e = ValueError))
  ∧ (is_algebraic p = true →
     is_ascii p = true
     ∧ ∃ row col, position_to_coords p = Ok (row, col)
         ∧ is_valid_position row col = true).
Proof.
  split; [intros _; split|].
  - destruct p as [|f [|r [|c p]]]; simpl.
    1,2,4: split; [intros _; left; lia | intros _; by eexists].
    rewrite int_char_digit. destruct (is_decimal_digit r) eqn:Hr; simpl.
    + split; [by intros [e ?]|]. intros [?|(f' & r' & [= -> ->] & Hr')]; [done|congruence].
    + split; [|by eexists]. intros _. right. by exists f, r.
  - intros e. destruct p as [|f [|r [|c p]]]; simpl; try congruence.
    rewrite int_char_digit. destruct (is_decimal_digit r); simpl; congruence.
  - intros Halg. split; [by apply is_algebraic_ascii|].
    apply is_algebraic_coords in Halg as (row & col & Hv & Hpos & _). eauto.
Qed.

Lemma position_to_coords_raises_witness :
  (is_ascii "e" = true ∧ position_to_coords "e" = Raise ValueError)
  ∧ (is_ascii "ex" = true ∧ position_to_coords "ex" = Raise ValueError)
  ∧ (is_algebraic "e4" = true
     ∧ ∃ row col, position_to_coords "e4" = Ok (row, col)
         ∧ is_valid_position row col = true).
Proof.
  split; [|split]; (split; [reflexivity|]).
  - destruct (position_to_coords_raises "e") as [Hascii _].
    destruct (Hascii eq_refl) as [Hraises Herror].
    destruct (proj2 Hraises) as [e He]; [left; simpl; lia|].
    by rewrite He, (Herror e He).
  - destruct (position_to_coords_raises "ex") as [Hascii _].
    destruct (Hascii eq_refl) as [Hraises Herror].
    destruct (proj2 Hraises) as [e He]; [right; by eexists _, _|].
    by rewrite He, (Herror e He).
  - apply (position_to_coords_raises "e4"). reflexivity.
Defined.

(** C3: the two conversions are inverse to each other on the 64 squares
    and their names.  From a square, the name converts back to the square;
    from a well-formed position, in either case of its file letter, the
    coordinates convert back to the position in lower case. *)
Theorem coords_position_roundtrip (row col : Z) (p : string) :
  is_valid_position row col = true →
  is_algebraic p = true →
  (∃ name, coords_to_position row col = Ok name
     ∧ is_algebraic name = true
     ∧ position_to_coords name = Ok (row, col))
  ∧ (∃ r c, position_to_coords p = Ok (r, c)
       ∧ is_valid_position r c = true
       ∧ coords_to_position r c = Ok (lower p)).
Proof.
  intros Hv Hp. split.
  - exists (square_name (row, col)). split_and!.
    + by apply coords_to_position_valid.
    + by apply square_name_algebraic.
    + by apply position_to_coords_square_name.
  - destruct (is_algebraic_coords p Hp) as (r & c & Hrc & Hpos & Hname).
    exists r, c. split_and!; [done..|].
    rewrite <- Hname. by apply coords_to_position_valid.
Qed.

Lemma coords_position_roundtrip_witness :
  is_valid_position 3 4 = true
  ∧ is_algebraic "E4" = true
  ∧ (∃ name, coords_to_position 3 4 = Ok name
       ∧ is_algebraic name = true
       ∧ position_to_coords name = Ok (3, 4))
  ∧ (∃ r c, position_to_coords "E4" = Ok (r, c)
       ∧ is_valid_position r c = true
       ∧ coords_to_position r c = Ok (lower "E4")).
Proof.
  split; [reflexivity|]. split; [reflexivity|].
  apply (coords_position_roundtrip 3 4 "E4"); reflexivity.
Defined.

(** ** The move generator *)

(** C5: from every square of the board a rook has exactly 14 moves, all
    different: 7 keep its rank and 7 keep its file. *)
Theorem rook_fourteen_moves (piece_type p color : string) (row col : Z) :
  lower piece_type = "rook" →
  position_to_coords p = Ok (row, col) →
  is_valid_position row col = true →
  length (_get_rook_moves row col) = 14%nat
  ∧ length (filter (λ sq, sq.1 = row) (_get_rook_moves row col)) = 7%nat
  ∧ length (filter (λ sq, sq.2 = col) (_get_rook_moves row col)) = 7%nat
  ∧ ∃ moves, get_piece_moves piece_type p color = Ok moves
      ∧ moves = square_name <$> _get_rook_moves row col
      ∧ length moves = 14%nat
      ∧ NoDup moves.
Proof.
  intros Hkind Hpos Hv. split_and!.
  - by apply rook_moves_length.
  - clear Hpos. revert row col Hv. on_the_board.
  - clear Hpos. revert row col Hv. on_the_board.
  - eexists. split; [by apply get_piece_moves_Ok|].
    pose proof (square_names_NoDup (lower piece_type) row col Hv) as Hnd.
    rewrite on_board_moves_dispatch, Hkind in *.
    change (dispatch "rook" row col) with (_get_rook_moves row col) in *.
    split_and!; [done| |done].
    rewrite length_fmap. by apply rook_moves_length.
Qed.

Lemma rook_fourteen_moves_witness :
  (∃ moves, get_piece_moves "rook" "a1" "white" = Ok moves ∧ length moves = 14%nat)
  ∧ (∃ moves, get_piece_moves "Rook" "D4" "black" = Ok moves ∧ length moves = 14%nat).
Proof.
  split.
  - destruct (rook_fourteen_moves "rook" "a1" "white" 0 0)
      as (_ & _ & _ & moves & Hm & _ & Hlen & _); [reflexivity..|].
    by exists moves.
  - destruct (rook_fourteen_moves "Rook" "D4" "black" 3 3)
      as (_ & _ & _ & moves & Hm & _ & Hlen & _); [reflexivity..|].
    by exists moves.
Defined.

(** C6: a piece type that is none of the five supported kinds has no moves
    from any square of the board, and asking for them raises nothing. *)
Theorem get_piece_moves_unsupported (piece_type p color : string) :
  lower piece_type ∉ supported_kinds →
  is_algebraic p = true →
  get_piece_moves piece_type p color = Ok [].
Proof.
  intros Hk (row & col & _ & Hpos & _)%is_algebraic_coords.
  rewrite (get_piece_moves_Ok _ _ _ row col Hpos).
  by rewrite on_board_moves_dispatch, dispatch_unsupported.
Qed.

Lemma get_piece_moves_unsupported_witness :
  (lower "Pawn" ∉ supported_kinds)
  ∧ is_algebraic "e2" = true
  ∧ get_piece_moves "Pawn" "e2" "white" = Ok [].
Proof.
  assert (Hk : lower "Pawn" ∉ supported_kinds) by not_listed.
  split; [exact Hk|]. split; [reflexivity|].
  apply (get_piece_moves_unsupported "Pawn" "e2" "white" Hk). reflexivity.
Defined.

(** C7: the colour argument is never looked at: whatever the piece type and
    the position (well formed or not), the moves and the attacks are the same
    for any two colours, 'white' and 'black' in particular. *)
Theorem color_is_unused (piece_type p target color1 color2 : string) :
  get_piece_moves piece_type p color1 = get_piece_moves piece_type p color2
  ∧ can_attack piece_type p target color1 = can_attack piece_type p target color2.
Proof. split; reflexivity. Qed.

(** C10: from a square of the board, whatever the piece type, every listed
    position names a square of the board, no position is listed twice, and
    none of them denotes the square the piece stands on. *)
Theorem get_piece_moves_invariant (piece_type p color : string) (row col : Z) :
  position_to_coords p = Ok (row, col) →
  is_valid_position row col = true →
  ∃ moves, get_piece_moves piece_type p color = Ok moves
    ∧ (∀ m, m ∈ moves →
         ∃ r c, is_valid_position r c = true
           ∧ coords_to_position r c = Ok m
           ∧ position_to_coords m = Ok (r, c))
    ∧ NoDup moves
    ∧ (∀ m, m ∈ moves → position_to_coords m ≠ Ok (row, col))
    ∧ (p ∉ moves).
Proof.
  intros Hpos Hv. eexists. split; [by apply get_piece_moves_Ok|].
  assert (Hstart : ∀ m, m ∈ square_name <$> on_board_moves (lower piece_type) row col →
                        position_to_coords m ≠ Ok (row, col)).
  { intros m ([r c] & -> & [Hrc Hin]%elem_of_on_board_moves)%list_elem_of_fmap.
    rewrite position_to_coords_square_name by done. intros [= -> ->].
    by apply dispatch_not_start in Hin. }
  split_and!.
  - intros m ([r c] & -> & [Hrc _]%elem_of_on_board_moves)%list_elem_of_fmap.
    exists r, c. split_and!; [done| |].
    + by apply coords_to_position_valid.
    + by apply position_to_coords_square_name.
  - by apply square_names_NoDup.
  - done.
  - intros Hin. by apply Hstart in Hin.
Qed.

Lemma get_piece_moves_invariant_witness :
  ∃ moves, get_piece_moves "Queen" "D4" "white" = Ok moves
    ∧ NoDup moves ∧ ("D4" ∉ moves) ∧ ("d4" ∉ moves).
Proof.
  destruct (get_piece_moves_invariant "Queen" "D4" "white" 3 3)
    as (moves & Hm & _ & Hnd & Hne & Hp); [reflexivity..|].
  exists moves. split_and!; [done..|].
  intros Hin. by apply Hne in Hin.
Defined.

(** ** Attacks *)

Lemma can_attack_Ok piece_type from_pos target_pos color row col :
  position_to_coords from_pos = Ok (row, col) →
  can_attack piece_type from_pos target_pos color
  = Ok (bool_decide
          (target_pos ∈ square_name <$> on_board_moves (lower piece_type) row col)).
Proof.
  intros Hpos. unfold can_attack.
  by rewrite (get_piece_moves_Ok _ _ _ row col Hpos).
Qed.

(** Between two squares of the board [can_attack] is the geometry of the
    piece. *)
Lemma can_attack_reaches piece_type color row col r c :
  is_valid_position row col = true →
  is_valid_position r c = true →
  can_attack piece_type (square_name (row, col)) (square_name (r, c)) color
  = Ok (reaches (lower piece_type) (row, col) (r, c)).
Proof.
  intros Hv Hv'.
  rewrite (can_attack_Ok _ _ _ _ row col) by by apply position_to_coords_square_name.
  f_equal. apply bool_decide_eq_true_iff_eq.
  rewrite elem_of_square_names, on_board_moves_dispatch by done.
  by apply dispatch_reaches.
Qed.

(** *** Lower case *)

Lemma lower_char_idemp c : lower_char (lower_char c) = lower_char c.
Proof. destruct c as [[] [] [] [] [] [] [] []]; reflexivity. Qed.

Lemma int_char_lower c : int_char (lower_char c) = int_char c.
Proof. destruct c as [[] [] [] [] [] [] [] []]; reflexivity. Qed.

Lemma lower_idemp s : lower (lower s) = lower s.
Proof. induction s as [|c s IH]; simpl; [done|]. by rewrite lower_char_idemp, IH. Qed.

Lemma position_to_coords_lower p :
  position_to_coords (lower p) = position_to_coords p.
Proof.
  destruct p as [|f [|r [|c p]]]; simpl; try done.
  by rewrite lower_char_idemp, int_char_lower.
Qed.

(** The position a piece stands on may be written in either case. *)
Lemma can_attack_from_lower piece_type from_pos target_pos color :
  can_attack piece_type (lower from_pos) target_pos color
  = can_attack piece_type from_pos target_pos color.
Proof.
  unfold can_attack, get_piece_moves. by rewrite position_to_coords_lower.
Qed.

(** A two-piece game does not depend on the case of its four arguments. *)
Lemma game_lower wp ws bp bs :
  MyChessGame.__init__ (lower wp) (lower ws) (lower bp) (lower bs)
  = MyChessGame.__init__ wp ws bp bs.
Proof. unfold MyChessGame.__init__. by rewrite !lower_idemp. Qed.

(** C8 fails on the code for the target: [can_attack] parses the position
    the piece stands on, lower-casing its file letter, but looks the target
    up verbatim in a list of lower-case names.  A rook on a1 attacks a8,
    from "a1" as from "A1", but is reported not to attack "A8". *)
Lemma can_attack_upper_case_target :
  can_attack "rook" "a1" "a8" "white" = Ok true
  ∧ can_attack "rook" "A1" "a8" "white" = Ok true
  ∧ can_attack "rook" "a1" "A8" "white" = Ok false.
Proof. split_and!; vm_compute; reflexivity. Qed.

(** ** Two-piece games *)

(** In a game, a position given in either case is stored under the name of
    its square. *)
Lemma is_algebraic_lower p :
  is_algebraic p = true →
  ∃ row col, is_valid_position row col = true
    ∧ lower p = square_name (row, col)
    ∧ position_to_coords (lower p) = Ok (row, col).
Proof.
  intros (row & col & Hv & _ & <-)%is_algebraic_coords.
  exists row, col. split_and!; [done..|].
  by apply position_to_coords_square_name.
Qed.

(** C1: in a game of two supported pieces on squares of the board, nothing
    is raised, an attack is the geometry of the attacking piece between
    the two squares, and the verdict follows the precedence of the
    specification: the only side that attacks wins; when both attack or
    neither does, the more valuable piece wins; with equal values it is a
    draw. *)
Theorem determine_winner_precedence (wp ws bp bs : string) :
  lower wp ∈ supported_kinds →
  lower bp ∈ supported_kinds →
  is_algebraic ws = true →
  is_algebraic bs = true →
  let game := __init__ wp ws bp bs in
  ∃ (wsq bsq : Z * Z) (white_can_attack black_can_attack : bool)
    (white_value black_value : Z) (verdict : string),
    position_to_coords ws = Ok wsq
    ∧ position_to_coords bs = Ok bsq
    ∧ can_white_attack_black game = Ok white_can_attack
    ∧ white_can_attack = reaches (lower wp) wsq bsq
    ∧ can_black_attack_white game = Ok black_can_attack
    ∧ black_can_attack = reaches (lower bp) bsq wsq
    ∧ PIECE_VALUES !! lower wp = Some white_value
    ∧ PIECE_VALUES !! lower bp = Some black_value
    ∧ determine_winner game = Ok verdict
    ∧ (white_can_attack = true → black_can_attack = false →
       verdict = "white " +:+ lower wp +:+ " wins")
    ∧ (black_can_attack = true → white_can_attack = false →
       verdict = "black " +:+ lower bp +:+ " wins")
    ∧ (white_can_attack = black_can_attack → white_value > black_value →
       verdict = "white " +:+ lower wp +:+ " wins")
    ∧ (white_can_attack = black_can_attack → black_value > white_value →
       verdict = "black " +:+ lower bp +:+ " wins")
    ∧ (white_can_attack = black_can_attack → white_value = black_value →
       verdict = "draw").
Proof.
  intros Hwk Hbk Hws Hbs game.
  destruct (getitem_supported _ Hwk) as (wv & Hwv & Hwl).
  destruct (getitem_supported _ Hbk) as (bv & Hbv & Hbl).
  destruct (is_algebraic_coords ws Hws) as (wr & wc & Hwsq & Hwpos & Hwname).
  destruct (is_algebraic_coords bs Hbs) as (br & bc & Hbsq & Hbpos & Hbname).
  assert (Hwa : can_white_attack_black game
                = Ok (reaches (lower wp) (wr, wc) (br, bc))).
  { unfold can_white_attack_black, game. cbn [white_piece white_pos black_pos __init__].
    rewrite <- Hwname, <- Hbname. rewrite <- (lower_idemp wp) at 2.
    by apply can_attack_reaches. }
  assert (Hba : can_black_attack_white game
                = Ok (reaches (lower bp) (br, bc) (wr, wc))).
  { unfold can_black_attack_white, game. cbn [black_piece white_pos black_pos __init__].
    rewrite <- Hwname, <- Hbname. rewrite <- (lower_idemp bp) at 2.
    by apply can_attack_reaches. }
  remember (reaches (lower wp) (wr, wc) (br, bc)) as wa eqn:Ewa.
  remember (reaches (lower bp) (br, bc) (wr, wc)) as ba eqn:Eba.
  assert (Hdw : determine_winner game = Ok (
    if wa && negb ba then "white " +:+ lower wp +:+ " wins"
    else if ba && negb wa then "black " +:+ lower bp +:+ " wins"
    else if wv >? bv then "white " +:+ lower wp +:+ " wins"
    else if bv >? wv then "black " +:+ lower bp +:+ " wins"
    else "draw")).
  { unfold determine_winner. rewrite Hwa, Hba. unfold game.
    cbn [white_piece black_piece __init__]. rewrite Hwv, Hbv. cbn.
    destruct wa, ba; cbn; try done; by repeat case_match. }
  exists (wr, wc), (br, bc), wa, ba, wv, bv. eexists.
  split_and!; [done..|exact Hdw| | | | |]; clear Ewa Eba Hwa Hba Hdw.
  - by intros -> ->.
  - by intros -> ->.
  - intros <- Hgt. apply Z.gtb_gt in Hgt. rewrite Hgt. by destruct wa.
  - intros <- Hgt. pose proof Hgt as Hgt'%Z.gtb_gt.
    destruct (Z.gtb_spec wv bv); [lia|]. rewrite Hgt'. by destruct wa.
  - intros <- ->. rewrite Z.gtb_ltb, Z.ltb_irrefl. by destruct wa.
Qed.

Lemma determine_winner_precedence_witness :
  ∃ verdict, determine_winner (__init__ "Queen" "e4" "Knight" "f6") = Ok verdict
    ∧ verdict = "black knight wins".
Proof.
  destruct (determine_winner_precedence "Queen" "e4" "Knight" "f6")
    as (wsq & bsq & wa & ba & wv & bv & verdict
        & _ & _ & Hwa & _ & Hba & _ & _ & _ & Hv & _ & Hblack & _);
    [listed | listed | reflexivity | reflexivity |].
  exists verdict. split; [exact Hv|].
  apply Hblack.
  - vm_compute in Hba. congruence.
  - vm_compute in Hwa. congruence.
Defined.

(** C9: when the kind of either piece is not a key of [PIECE_VALUES], the
    verdict is a [KeyError].  The values are looked up before any attack is
    evaluated: the error is the same when the positions are malformed, where
    evaluating an attack would raise a [ValueError].  The move generator
    itself gives such a piece an empty list of moves. *)
Theorem determine_winner_unsupported (wp ws bp bs : string) :
  lower wp ∉ supported_kinds ∨ lower bp ∉ supported_kinds →
  let game := __init__ wp ws bp bs in
  determine_winner game = Raise KeyError
  ∧ (lower wp ∉ supported_kinds → is_algebraic ws = true →
     get_white_moves game = Ok [])
  ∧ (lower bp ∉ supported_kinds → is_algebraic bs = true →
     get_black_moves game = Ok []).
Proof.
  intros Hk game. split_and!.
  - unfold determine_winner, game. cbn [white_piece black_piece __init__].
    destruct (decide (lower wp ∈ supported_kinds)) as [Hw|Hw].
    + destruct Hk as [Hk|Hk]; [done|].
      destruct (getitem_supported _ Hw) as (wv & -> & _).
      by rewrite (getitem_unsupported _ Hk).
    + by rewrite (getitem_unsupported _ Hw).
  - intros Hw (row & col & _ & _ & Hpos)%is_algebraic_lower.
    unfold get_white_moves, game. cbn [white_piece white_pos __init__].
    rewrite (get_piece_moves_Ok _ _ _ row col Hpos).
    by rewrite on_board_moves_dispatch, lower_idemp, dispatch_unsupported.
  - intros Hb (row & col & _ & _ & Hpos)%is_algebraic_lower.
    unfold get_black_moves, game. cbn [black_piece black_pos __init__].
    rewrite (get_piece_moves_Ok _ _ _ row col Hpos).
    by rewrite on_board_moves_dispatch, lower_idemp, dispatch_unsupported.
Qed.

Lemma determine_winner_unsupported_witness :
  determine_winner (__init__ "Queen" "e4" "Pawn" "e5") = Raise KeyError
  ∧ determine_winner (__init__ "pawn" "e44" "king" "") = Raise KeyError
  ∧ get_black_moves (__init__ "Queen" "e4" "Pawn" "e5") = Ok [].
Proof.
  assert (Hk : lower "Pawn" ∉ supported_kinds) by not_listed.
  split_and!.
  - apply (determine_winner_unsupported "Queen" "e4" "Pawn" "e5"). right. exact Hk.
  - apply (determine_winner_unsupported "pawn" "e44" "king" ""). left. exact Hk.
  - apply (determine_winner_unsupported "Queen" "e4" "Pawn" "e5");
      [right; exact Hk | exact Hk | reflexivity].
Defined.

(** ** Multi-piece positions *)

(** The notions of the specification, on the items of the board. *)

Lemma group_pieces_Ok (items : list item) (acc : list placed * list placed) :
  Forall item_ok items →
  group_pieces acc items
  = Ok (acc.1 ++ (entry <$> filter (λ it : item, it.2.(color) = "white") items),
        acc.2 ++ (entry <$> filter (λ it : item, it.2.(color) = "black") items))%list.
Proof.
  intros Hok. revert acc.
  induction Hok as [|[[row col] info] items (Hv & _ & Hc) _ IH]; intros [ws bs].
  - simpl. by rewrite !app_nil_r.
  - simpl in Hv, Hc. cbn [group_pieces add_piece].
    rewrite (coords_to_position_valid row col Hv). cbn.
    destruct Hc as [Hc|Hc]; rewrite Hc; repeat case_decide; try done;
      cbn; rewrite IH; cbn; by rewrite <- app_assoc.
Qed.

Lemma can_attack_entry (a t : item) (side : string) :
  is_valid_position a.1.1 a.1.2 = true →
  is_valid_position t.1.1 t.1.2 = true →
  can_attack (entry a).(p_piece) (entry a).(p_position) (entry t).(p_position) side
  = Ok (attacks a t).
Proof.
  destruct a as [[ar ac] ai], t as [[tr tc] ti]. simpl. intros Ha Ht.
  rewrite (can_attack_Ok _ _ _ _ ar ac) by by apply position_to_coords_square_name.
  f_equal. unfold attacks. simpl.
  apply bool_decide_ext. by apply elem_of_square_names.
Qed.

Lemma count_targets_Ok (a : item) (targets : list item) (side : string) (n : Z) :
  is_valid_position a.1.1 a.1.2 = true →
  Forall item_ok targets →
  count_targets (entry a) (entry <$> targets) side n
  = Ok (n + Z.of_nat (length (t ← targets; if attacks a t then [(a, t)] else []))).
Proof.
  intros Ha Hok. revert n.
  induction Hok as [|t targets (Ht & _) _ IH]; intros n.
  - simpl. f_equal. lia.
  - cbn [fmap list_fmap count_targets].
    rewrite (can_attack_entry a t side Ha Ht). cbn.
    rewrite IH. f_equal.
    destruct (attacks a t); simpl length; lia.
Qed.

Lemma count_attacks_Ok (attackers targets : list item) (side : string) (n : Z) :
  Forall item_ok attackers →
  Forall item_ok targets →
  count_attacks (entry <$> attackers) (entry <$> targets) side n
  = Ok (n + Z.of_nat (length (attack_pairs attackers targets))).
Proof.
  intros Hoka Hok. revert n.
  induction Hoka as [|a attackers (Ha & _) _ IH]; intros n.
  - simpl. f_equal. lia.
  - cbn [fmap list_fmap count_attacks].
    rewrite (count_targets_Ok a targets side n Ha Hok). cbn.
    rewrite IH. f_equal. unfold attack_pairs.
    rewrite length_app. lia.
Qed.

Lemma total_value_Ok (pieces : list item) (acc : Z) :
  Forall item_ok pieces →
  total_value (entry <$> pieces) acc
  = Ok (acc + foldr Z.add 0 (value_of <$> pieces)).
Proof.
  intros Hok. revert acc.
  induction Hok as [|p pieces (_ & Hk & _) _ IH]; intros acc.
  - simpl. f_equal. lia.
  - cbn [fmap list_fmap total_value].
    destruct (getitem_supported _ Hk) as (v & Hv & Hl).
    change (p_piece (entry p)) with (piece p.2). rewrite Hv. cbn.
    rewrite IH. f_equal.
    assert (value_of p = v) as -> by (unfold value_of; by rewrite Hl). lia.
Qed.

Lemma pieces_of_ok side board :
  board_ok board → Forall item_ok (pieces_of side board).
Proof.
  intros Hok%map_Forall_to_list. rewrite Forall_forall in Hok.
  apply Forall_forall. intros [sq info] [_ Hin]%list_elem_of_filter.
  apply (Hok (sq, info) Hin).
Qed.

(** C4, as stated, fails in both directions.  With two white rooks on a1
    and a2 against a black knight on c5 nobody attacks anybody, so white
    has not strictly more attacks, yet white is predicted to win, on
    material alone.  With a white knight on c3 and king on a1 against a
    black bishop on e4 and king on h8, white has the only attack and the
    material is equal, yet the position is called roughly equal. *)
Lemma analyze_position_not_attacks_first :
  (∃ r, analyze_position two_rooks_and_a_knight = Ok (Some r)
     ∧ winner r = WHITE_IS_LIKELY_TO_WIN
     ∧ ¬ (white_attacks r > black_attacks r ∧ white_value r >= black_value r))
  ∧ (∃ r, analyze_position knight_against_bishop = Ok (Some r)
       ∧ winner r = POSITION_IS_ROUGHLY_EQUAL
       ∧ (white_attacks r > black_attacks r ∧ white_value r >= black_value r)).
Proof.
  split; eexists; (split; [vm_compute; reflexivity|]); simpl.
  - split; [done|]. lia.
  - split; [done|]. lia.
Qed.

(** C4, amended: on every position of at least two pieces the counts of
    the report are the numbers of cross-side attack pairs and the total
    material values, and a side is predicted to win exactly when its
    material is strictly higher and it has at least as many attacks as the
    other side; otherwise the position is called roughly equal. *)
Theorem analyze_position_prediction (board : gmap (Z * Z) piece_info) :
  board_ok board →
  (2 ≤ size board)%nat →
  ∃ r, analyze_position board = Ok (Some r)
    ∧ white_attacks r = attacks_of "white" "black" board
    ∧ black_attacks r = attacks_of "black" "white" board
    ∧ white_value r = material_value "white" board
    ∧ black_value r = material_value "black" board
    ∧ (winner r = WHITE_IS_LIKELY_TO_WIN ↔
       white_value r > black_value r ∧ white_attacks r >= black_attacks r)
    ∧ (winner r = BLACK_IS_LIKELY_TO_WIN ↔
       black_value r > white_value r ∧ black_attacks r >= white_attacks r)
    ∧ (winner r = POSITION_IS_ROUGHLY_EQUAL ↔
       ¬ (white_value r > black_value r ∧ white_attacks r >= black_attacks r)
       ∧ ¬ (black_value r > white_value r ∧ black_attacks r >= white_attacks r)).
Proof.
  intros Hok Hsize. unfold analyze_position.
  destruct (Z.ltb_spec (Z.of_nat (size board)) 2) as [?|_]; [lia|].
  pose proof (pieces_of_ok "white" board Hok) as Hw.
  pose proof (pieces_of_ok "black" board Hok) as Hb.
  rewrite group_pieces_Ok by (eapply Forall_impl;
    [by apply map_Forall_to_list | by intros [sq info]]).
  cbn [mbind result_bind fst snd app].
  unfold attacks_of, material_value, pieces_of in *.
  rewrite (count_attacks_Ok _ _ "white" 0 Hw Hb). cbn [mbind result_bind].
  rewrite (count_attacks_Ok _ _ "black" 0 Hb Hw). cbn [mbind result_bind].
  rewrite (total_value_Ok _ 0 Hw). cbn [mbind result_bind].
  rewrite (total_value_Ok _ 0 Hb). cbn [mbind result_bind].
  rewrite !Z.add_0_l.
  eexists. split; [reflexivity|].
  cbn [white_attacks black_attacks white_value black_value winner].
  split_and!; [done..| | |].
  all: repeat match goal with
       | |- context [Z.gtb ?a ?b] => destruct (Z.gtb_spec a b)
       | |- context [Z.geb ?a ?b] => destruct (Z.geb_spec a b)
       end; cbn [andb]; split; first [done | lia | intros; split; lia].
Qed.

Lemma analyze_position_prediction_witness :
  ∃ r, analyze_position knight_against_bishop = Ok (Some r)
    ∧ (winner r = POSITION_IS_ROUGHLY_EQUAL ↔
       ¬ (white_value r > black_value r ∧ white_attacks r >= black_attacks r)
       ∧ ¬ (black_value r > white_value r ∧ black_attacks r >= white_attacks r)).
Proof.
  assert (Hok : board_ok knight_against_bishop) by listed.
  destruct (analyze_position_prediction knight_against_bishop Hok)
    as (r & Hr & _ & _ & _ & _ & _ & _ & Heq); [vm_compute; lia|].
  by exists r.
Defined.

(** * Further properties of the code *)

(** ** The move generator *)

(** X1: from a square of the board, the listed moves are the squares the
    piece reaches by its geometry on an empty board: same rank or file for
    a rook, same diagonal for a bishop, either for a queen, an L for a
    knight, a neighbour for a king, nothing for any other piece type. *)
Theorem get_piece_moves_geometry (piece_type p color : string) (row col r c : Z) :
  position_to_coords p = Ok (row, col) →
  is_valid_position row col = true →
  is_valid_position r c = true →
  ∃ moves name,
    get_piece_moves piece_type p color = Ok moves
    ∧ coords_to_position r c = Ok name
    ∧ (name ∈ moves ↔ reaches (lower piece_type) (row, col) (r, c) = true).
Proof.
  intros Hpos Hv Hv'. eexists _, _. split_and!.
  - by apply get_piece_moves_Ok.
  - by apply coords_to_position_valid.
  - rewrite elem_of_square_names, on_board_moves_dispatch by done.
    by apply dispatch_reaches.
Qed.

Lemma get_piece_moves_geometry_witness :
  ∃ moves,
    get_piece_moves "Knight" "F6" "black" = Ok moves
    ∧ ("e4" ∈ moves ↔ reaches "knight" (5, 5) (3, 4) = true).
Proof.
  destruct (get_piece_moves_geometry "Knight" "F6" "black" 5 5 3 4)
    as (moves & name & Hm & Hn & Hiff); [reflexivity..|].
  exists moves. split; [exact Hm|].
  vm_compute in Hn. injection Hn as <-. exact Hiff.
Defined.



Lemma lower_square_name row col :
  is_valid_position row col = true →
  lower (square_name (row, col)) = square_name (row, col).
Proof. revert row col. on_the_board. Qed.

Lemma can_attack_Raise piece_type from_pos target_pos color e :
  position_to_coords from_pos = Raise e →
  can_attack piece_type from_pos target_pos color = Raise e.
Proof. intros Hpos. unfold can_attack, get_piece_moves. by rewrite Hpos. Qed.

Lemma position_to_coords_ValueError p e :
  position_to_coords p = Raise e → e = ValueError.
Proof.
  destruct p as [|f [|r [|c p]]]; simpl; try congruence.
  rewrite int_char_digit. destruct (is_decimal_digit r); simpl; congruence.
Qed.

(** X3: a queen attacks exactly what a rook or a bishop on her square
    attacks, and asking fails exactly as it fails for them, whatever the
    two strings are. *)
Theorem queen_is_rook_or_bishop (from_pos target_pos color : string) :
  can_attack "queen" from_pos target_pos color
  = (as_rook ← can_attack "rook" from_pos target_pos color;
     as_bishop ← can_attack "bishop" from_pos target_pos color;
     Ok (as_rook || as_bishop)).
Proof.
  destruct (position_to_coords from_pos) as [[row col]|e] eqn:Hpos.
  - rewrite !(can_attack_Ok _ _ _ _ row col Hpos). cbn [mbind result_bind].
    f_equal. rewrite <- bool_decide_or. apply bool_decide_ext.
    change (lower "queen") with "queen". change (lower "rook") with "rook".
    change (lower "bishop") with "bishop".
    rewrite <- elem_of_app, <- fmap_app. unfold on_board_moves.
    by rewrite <- filter_app.
  - by rewrite !(can_attack_Raise _ _ _ _ e Hpos).
Qed.

(** X4: the numbers of moves of the sliding pieces from a square of the
    board.  A bishop has as many moves as its four diagonal rays are long,
    between 7 and 13; a queen has the 14 moves of a rook more. *)
Theorem sliding_move_counts (p color : string) (row col : Z) :
  position_to_coords p = Ok (row, col) →
  is_valid_position row col = true →
  length <$> get_piece_moves "bishop" p color = Ok (Z.to_nat (diagonal_reach row col))
  ∧ length <$> get_piece_moves "queen" p color
    = Ok (14 + Z.to_nat (diagonal_reach row col))%nat
  ∧ 7 ≤ diagonal_reach row col ≤ 13.
Proof.
  intros Hpos Hv. rewrite !(get_piece_moves_Ok _ _ _ row col Hpos).
  clear Hpos. revert row col Hv. on_the_board.
Qed.

Lemma sliding_move_counts_witness :
  length <$> get_piece_moves "bishop" "d4" "white" = Ok 13%nat
  ∧ length <$> get_piece_moves "queen" "a1" "white" = Ok 21%nat.
Proof.
  split.
  - apply (sliding_move_counts "d4" "white" 3 3); reflexivity.
  - apply (sliding_move_counts "a1" "white" 0 0); reflexivity.
Defined.

(** X5: the numbers of moves of the stepping pieces from a square of the
    board.  A king has a move to each neighbour: 3 in a corner, 5 on an
    edge, 8 elsewhere.  A knight has between 2 and 8 moves, and 8 exactly
    when it stands at least two squares away from every edge. *)
Theorem stepping_move_counts (p color : string) (row col : Z) :
  position_to_coords p = Ok (row, col) →
  is_valid_position row col = true →
  length <$> get_piece_moves "king" p color = Ok (Z.to_nat (neighbours row col))
  ∧ ∃ n, length <$> get_piece_moves "knight" p color = Ok n
      ∧ (2 ≤ n ≤ 8)%nat
      ∧ (n = 8%nat ↔ 2 ≤ row ≤ 5 ∧ 2 ≤ col ≤ 5).
Proof.
  intros Hpos Hv. rewrite !(get_piece_moves_Ok _ _ _ row col Hpos). split.
  - clear Hpos. revert row col Hv. on_the_board.
  - eexists. split; [reflexivity|].
    clear Hpos. revert row col Hv. on_the_board.
Qed.

Lemma stepping_move_counts_witness :
  length <$> get_piece_moves "king" "a1" "white" = Ok 3%nat
  ∧ ∃ n, length <$> get_piece_moves "knight" "d4" "white" = Ok n ∧ n = 8%nat.
Proof.
  destruct (stepping_move_counts "d4" "white" 3 3) as (_ & n & Hn & _ & Hiff);
    [reflexivity..|].
  split.
  - apply (stepping_move_counts "a1" "white" 0 0); reflexivity.
  - exists n. split; [exact Hn|]. apply Hiff. lia.
Defined.

(** The names of the generated squares, wherever the piece stands. *)
Lemma listed_names piece_type row col m :
  m ∈ square_name <$> on_board_moves piece_type row col →
  is_algebraic m = true ∧ lower m = m ∧ position_to_coords m ≠ Ok (row, col).
Proof.
  intros ([r c] & -> & [Hrc Hin]%elem_of_on_board_moves)%list_elem_of_fmap.
  split_and!.
  - by apply square_name_algebraic.
  - by apply lower_square_name.
  - rewrite position_to_coords_square_name by done. intros [= -> ->].
    by apply dispatch_not_start in Hin.
Qed.

(** X6: every position the conversion accepts has moves, also one that
    lies off the board such as "a0" or "z9": nothing is raised, and the
    listed positions are lower-case names of squares of the board, none of
    which denotes the square the piece was put on. *)
Theorem get_piece_moves_accepted (piece_type p color : string) (sq : Z * Z) :
  position_to_coords p = Ok sq →
  ∃ moves, get_piece_moves piece_type p color = Ok moves
    ∧ ∀ m, m ∈ moves →
        is_algebraic m = true ∧ lower m = m
        ∧ position_to_coords m ≠ Ok sq ∧ m ≠ p.
Proof.
  destruct sq as [row col]. intros Hpos. eexists.
  split; [by apply get_piece_moves_Ok|].
  intros m (Halg & Hlow & Hne)%listed_names.
  split_and!; [done..|]. intros Heq. by rewrite Heq in Hne.
Qed.

Lemma get_piece_moves_accepted_witness :
  position_to_coords "a0" = Ok (-1, 0)
  ∧ is_valid_position (-1) 0 = false
  ∧ ∃ moves, get_piece_moves "knight" "a0" "white" = Ok moves
      ∧ ∀ m, m ∈ moves → is_algebraic m = true.
Proof.
  split; [reflexivity|]. split; [reflexivity|].
  destruct (get_piece_moves_accepted "knight" "a0" "white" (-1, 0))
    as (moves & Hm & Hall); [reflexivity|].
  exists moves. split; [exact Hm|]. intros m Hin. by apply Hall.
Defined.

(** X7: [can_attack] fails exactly when the position of the piece is not
    accepted, with a [ValueError] when that position is an ASCII string;
    the target is never parsed, and an attack is only ever reported on a
    target that is the lower-case name of a square of the board other than
    the string the piece stands on. *)
Theorem can_attack_outcome (piece_type from_pos target_pos color : string) :
  (raises (can_attack piece_type from_pos target_pos color)
   ↔ raises (position_to_coords from_pos))
  ∧ (is_ascii from_pos = true →
     ∀ e, can_attack piece_type from_pos target_pos color = Raise e →
          e = ValueError)
  ∧ (can_attack piece_type from_pos target_pos color = Ok true →
     is_algebraic target_pos = true ∧ lower target_pos = target_pos
     ∧ target_pos ≠ from_pos).
Proof.
  destruct (position_to_coords from_pos) as [[row col]|e] eqn:Hpos.
  - rewrite (can_attack_Ok _ _ _ _ row col Hpos). split_and!.
    + split; intros [e ?]; done.
    + done.
    + intros [= Hin%bool_decide_eq_true].
      destruct (listed_names _ _ _ _ Hin) as (Halg & Hlow & Hne).
      split_and!; [done..|]. intros Heq. by rewrite Heq in Hne.
  - rewrite (can_attack_Raise _ _ _ _ e Hpos). split_and!.
    + split; intros _; by eexists.
    + intros _ e' [= <-]. by apply position_to_coords_ValueError in Hpos.
    + done.
Qed.

Lemma can_attack_outcome_witness :
  (is_ascii "a" = true ∧ can_attack "rook" "a" "a8" "white" = Raise ValueError)
  ∧ (can_attack "rook" "a1" "a8" "white" = Ok true
     ∧ is_algebraic "a8" = true ∧ lower "a8" = "a8" ∧ "a8" ≠ "a1").
Proof.
  split; (split; [reflexivity|]).
  - destruct (can_attack_outcome "rook" "a" "a8" "white") as (Hraises & Herror & _).
    destruct (proj2 Hraises) as [e He]; [by eexists|].
    by rewrite He, (Herror eq_refl e He).
  - apply (can_attack_outcome "rook" "a1" "a8" "white"). reflexivity.
Defined.

(** X8: the piece type and the position of the piece, as ASCII strings,
    may be given in either case: lower-casing them changes neither the
    moves nor the attacks, nor the error when there is one. *)
Theorem piece_and_position_case (piece_type p target color : string) :
  is_ascii piece_type = true →
  is_ascii p = true →
  get_piece_moves (lower piece_type) (lower p) color
  = get_piece_moves piece_type p color
  ∧ can_attack (lower piece_type) (lower p) target color
    = can_attack piece_type p target color.
Proof.
  intros _ _. unfold can_attack, get_piece_moves.
  by rewrite position_to_coords_lower, lower_idemp.
Qed.

Lemma piece_and_position_case_witness :
  get_piece_moves (lower "Queen") (lower "E4") "white"
  = get_piece_moves "Queen" "E4" "white"
  ∧ can_attack (lower "Queen") (lower "E4") "h7" "white"
    = can_attack "Queen" "E4" "h7" "white".
Proof.
  apply (piece_and_position_case "Queen" "E4" "h7" "white"); reflexivity.
Defined.

(** ** Two-piece games *)

Lemma can_attack_ValueError piece_type from_pos target_pos color e :
  can_attack piece_type from_pos target_pos color = Raise e → e = ValueError.
Proof.
  destruct (position_to_coords from_pos) as [[row col]|e'] eqn:Hpos.
  - by rewrite (can_attack_Ok _ _ _ _ row col Hpos).
  - rewrite (can_attack_Raise _ _ _ _ e' Hpos). intros [= <-].
    by apply position_to_coords_ValueError in Hpos.
Qed.

Lemma getitem_KeyError d k e : getitem d k = Raise e → e = KeyError.
Proof. unfold getitem. destruct (d !! k); congruence. Qed.

(** The statements of [determine_winner] on the attributes [__init__]
    sets. *)
Lemma determine_winner_init wp ws bp bs :
  determine_winner (__init__ wp ws bp bs)
  = (white_value ← getitem PIECE_VALUES (lower wp);
     black_value ← getitem PIECE_VALUES (lower bp);
     white_can_attack ← can_attack (lower wp) (lower ws) (lower bs) "white";
     black_can_attack ← can_attack (lower bp) (lower bs) (lower ws) "black";
     Ok (if white_can_attack && negb black_can_attack
         then "white " +:+ lower wp +:+ " wins"
         else if black_can_attack && negb white_can_attack
         then "black " +:+ lower bp +:+ " wins"
         else if white_value >? black_value
         then "white " +:+ lower wp +:+ " wins"
         else if black_value >? white_value
         then "black " +:+ lower bp +:+ " wins"
         else "draw")).
Proof.
  unfold determine_winner, can_white_attack_black, can_black_attack_white.
  cbn [white_piece white_pos black_piece black_pos __init__].
  destruct (getitem PIECE_VALUES (lower wp)) as [wv|]; [|done].
  destruct (getitem PIECE_VALUES (lower bp)) as [bv|]; [|done].
  destruct (can_attack (lower wp) (lower ws) (lower bs) "white") as [wa|]; [|done].
  destruct (can_attack (lower bp) (lower bs) (lower ws) "black") as [ba|]; [|done].
  cbn. by repeat case_match.
Qed.

(** X9: with two supported kinds, [determine_winner] fails exactly when
    one of the two positions is not accepted by the conversion, with a
    [ValueError]; otherwise it returns one of its three verdicts, also for
    accepted positions that lie off the board. *)
Theorem determine_winner_outcome (wp ws bp bs : string) :
  lower wp ∈ supported_kinds →
  lower bp ∈ supported_kinds →
  let game := __init__ wp ws bp bs in
  (raises (position_to_coords ws) ∨ raises (position_to_coords bs) →
   determine_winner game = Raise ValueError)
  ∧ (¬ raises (position_to_coords ws) → ¬ raises (position_to_coords bs) →
     ∃ verdict, determine_winner game = Ok verdict
       ∧ (verdict = "white " +:+ lower wp +:+ " wins"
          ∨ verdict = "black " +:+ lower bp +:+ " wins"
          ∨ verdict = "draw")).
Proof.
  intros Hwk Hbk game. unfold game. rewrite determine_winner_init.
  destruct (getitem_supported _ Hwk) as (wv & -> & _).
  destruct (getitem_supported _ Hbk) as (bv & -> & _).
  cbn [mbind result_bind].
  pose proof (position_to_coords_lower ws) as Hws.
  pose proof (position_to_coords_lower bs) as Hbs.
  destruct (position_to_coords ws) as [[wr wc]|ew] eqn:Ews;
    destruct (position_to_coords bs) as [[br bc]|eb] eqn:Ebs.
  - rewrite (can_attack_Ok _ _ _ _ wr wc Hws), (can_attack_Ok _ _ _ _ br bc Hbs).
    cbn [mbind result_bind]. split.
    + intros [[e ?]|[e ?]]; done.
    + intros _ _. eexists. split; [reflexivity|]. repeat case_match; auto.
  - rewrite (can_attack_Ok _ _ _ _ wr wc Hws), (can_attack_Raise _ _ _ _ eb Hbs).
    apply position_to_coords_ValueError in Ebs as ->. cbn [mbind result_bind].
    split; [done|]. intros _ Hb. destruct Hb. by eexists.
  - rewrite (can_attack_Raise _ _ _ _ ew Hws).
    apply position_to_coords_ValueError in Ews as ->. cbn [mbind result_bind].
    split; [done|]. intros Hw. destruct Hw. by eexists.
  - rewrite (can_attack_Raise _ _ _ _ ew Hws).
    apply position_to_coords_ValueError in Ews as ->. cbn [mbind result_bind].
    split; [done|]. intros Hw. destruct Hw. by eexists.
Qed.

Lemma determine_winner_outcome_witness :
  determine_winner (__init__ "Queen" "e4" "Rook" "e") = Raise ValueError
  ∧ ∃ verdict, determine_winner (__init__ "Queen" "z9" "Rook" "A0") = Ok verdict.
Proof.
  split.
  - apply (determine_winner_outcome "Queen" "e4" "Rook" "e"); [listed..|].
    right. by eexists.
  - destruct (determine_winner_outcome "Queen" "z9" "Rook" "A0")
      as (_ & verdict & Hv & _); [listed | listed | by intros [e ?].. |].
    by exists verdict.
Defined.

(** X10: the verdict does not favour a colour: when the two sides are
    exchanged, a draw stays a draw, a win of the piece goes with the piece
    to the other colour, and an error stays the same error.  This holds
    for all four strings. *)
Theorem determine_winner_sides_exchanged (wp ws bp bs : string) :
  let game := __init__ wp ws bp bs in
  let exchanged := __init__ bp bs wp ws in
  (∀ e, determine_winner game = Raise e ↔ determine_winner exchanged = Raise e)
  ∧ (determine_winner game = Ok "draw" ↔ determine_winner exchanged = Ok "draw")
  ∧ (determine_winner game = Ok ("white " +:+ lower wp +:+ " wins")
     ↔ determine_winner exchanged = Ok ("black " +:+ lower wp +:+ " wins"))
  ∧ (determine_winner game = Ok ("black " +:+ lower bp +:+ " wins")
     ↔ determine_winner exchanged = Ok ("white " +:+ lower bp +:+ " wins")).
Proof.
  intros game exchanged. unfold game, exchanged. rewrite !determine_winner_init.
  change (can_attack (lower bp) (lower bs) (lower ws) "white")
    with (can_attack (lower bp) (lower bs) (lower ws) "black").
  change (can_attack (lower wp) (lower ws) (lower bs) "black")
    with (can_attack (lower wp) (lower ws) (lower bs) "white").
  destruct (getitem PIECE_VALUES (lower wp)) as [wv|ew] eqn:Ewv;
    [|apply getitem_KeyError in Ewv as ->];
    (destruct (getitem PIECE_VALUES (lower bp)) as [bv|eb] eqn:Ebv;
      [|apply getitem_KeyError in Ebv as ->]);
    (destruct (can_attack (lower wp) (lower ws) (lower bs) "white") as [wa|ea] eqn:Ewa;
      [|apply can_attack_ValueError in Ewa as ->]);
    (destruct (can_attack (lower bp) (lower bs) (lower ws) "black") as [ba|eb'] eqn:Eba;
      [|apply can_attack_ValueError in Eba as ->]);
    cbn [mbind result_bind]; try (split_and!; [intros e|..]; split; congruence).
  destruct (Z.gtb_spec wv bv), (Z.gtb_spec bv wv); try lia;
    destruct wa, ba; cbn [andb negb];
    (split_and!; [intros e|..]; split; intros Heq;
     first [done | cbn in Heq; congruence]).
Qed.

(** X11: two pieces of the same supported kind on squares of the board
    always draw: their values are equal and, on the board, each attacks
    the other or neither does. *)
Theorem determine_winner_same_kind (wp ws bp bs : string) :
  lower wp = lower bp →
  lower wp ∈ supported_kinds →
  is_algebraic ws = true →
  is_algebraic bs = true →
  determine_winner (__init__ wp ws bp bs) = Ok "draw".
Proof.
  intros Hsame Hk Hws Hbs. rewrite determine_winner_init, <- Hsame.
  destruct (getitem_supported _ Hk) as (v & -> & _). cbn [mbind result_bind].
  destruct (is_algebraic_coords ws Hws) as (wr & wc & Hwv & _ & <-).
  destruct (is_algebraic_coords bs Hbs) as (br & bc & Hbv & _ & <-).
  rewrite !can_attack_reaches by done. cbn [mbind result_bind].
  rewrite (reaches_sym _ (br, bc) (wr, wc)), Z.gtb_ltb, Z.ltb_irrefl.
  by destruct (reaches _ _ _).
Qed.

Lemma determine_winner_same_kind_witness :
  determine_winner (__init__ "Rook" "a1" "ROOK" "A8") = Ok "draw".
Proof.
  apply (determine_winner_same_kind "Rook" "a1" "ROOK" "A8");
    [reflexivity | listed | reflexivity | reflexivity].
Defined.

(** Off the board the attacks of one kind need not be mutual: a knight
    put on "a0" attacks c1, the knight on c1 has no move to "a0". *)
Example off_board_knights :
  determine_winner (__init__ "knight" "a0" "knight" "c1") = Ok "white knight wins".
Proof. vm_compute. reflexivity. Qed.

(** ** The board of the GUI *)

Lemma on_board_valid row col : GUI.on_board row col = is_valid_position row col.
Proof.
  unfold GUI.on_board, is_valid_position.
  destruct (Z.leb_spec 0 row), (Z.ltb_spec row 8), (Z.leb_spec row 7),
    (Z.leb_spec 0 col), (Z.ltb_spec col 8), (Z.leb_spec col 7); simpl; lia.
Qed.

Lemma symbol_piece_ok info :
  piece_ok info → is_Some (GUI.symbol info.(piece) info.(color)).
Proof.
  destruct info as [k c]. unfold piece_ok, supported_kinds. simpl.
  rewrite !elem_of_cons, elem_of_nil. intros [Hk Hc].
  destruct_or!; subst; try done; by eexists.
Qed.

Lemma draw_pieces_ok (items : list item) :
  Forall (λ it : item, piece_ok it.2) items → GUI.draw_pieces items = None.
Proof.
  induction 1 as [|[sq info] items Hok _ IH]; [done|]. simpl.
  by destruct (symbol_piece_ok info Hok) as [n ->].
Qed.

Lemma draw_board_ok self :
  board_ok self.(GUI.board_pieces) → GUI.draw_board self = GUI.Returns self.
Proof.
  intros Hok%map_Forall_to_list. unfold GUI.draw_board.
  rewrite draw_pieces_ok; [done|].
  eapply Forall_impl; [exact Hok|]. intros [sq info] (_ & ? & ?). by split.
Qed.

Lemma board_ok_insert board row col info :
  board_ok board → is_valid_position row col = true → piece_ok info →
  board_ok (<[(row, col) := info]> board).
Proof.
  intros Hok Hv [Hk Hc]. apply map_Forall_insert_2; [|done]. by split_and!.
Qed.

Lemma board_ok_delete board sq : board_ok board → board_ok (delete sq board).
Proof. apply map_Forall_delete. Qed.

Lemma board_ok_lookup board row col info :
  board_ok board → board !! (row, col) = Some info →
  is_valid_position row col = true ∧ piece_ok info.
Proof. intros Hok Hl. destruct (Hok _ _ Hl) as (? & ? & ?). by split_and!. Qed.

(** Every handler keeps [gui_ok], and raises nothing on such a state. *)
Lemma handle_ok ev self :
  from_the_buttons ev → gui_ok self →
  ∃ self', GUI.handle ev self = GUI.Returns self' ∧ gui_ok self'.
Proof.
  intros Hev (Hboard & Hdrag & Hpiece & Hstart).
  destruct self as [board dragging carried start]. simpl in *.
  destruct ev as [k c|x_root y_root cv|x y|x y|]; simpl.
  - (* start_drag_from_button *)
    destruct Hev as [Hk Hc]. unfold GUI.start_drag_from_button. simpl.
    assert (Hok : piece_ok (mk_info k c)).
    { split; simpl.
      - revert Hk. unfold GUI.pieces, supported_kinds.
        rewrite !elem_of_cons, !elem_of_nil. tauto.
      - revert Hc. unfold GUI.colors. rewrite !elem_of_cons, elem_of_nil. tauto. }
    destruct (symbol_piece_ok _ Hok) as [n Hn]. simpl in Hn. rewrite Hn.
    eexists. split; [done|]. split_and!; simpl; [done|by eexists| |done].
    by intros info [= <-].
  - (* drop_piece *)
    unfold GUI.drop_piece. simpl.
    destruct dragging; simpl; [|eexists; split; [done|]; by split_and!].
    assert (Hend : gui_ok (GUI.end_drag (GUI.mk_gui board true carried start))).
    { by split_and!. }
    destruct (_ && _); [|by eexists].
    rewrite on_board_valid.
    destruct (is_valid_position _ _) eqn:Hv; [|by eexists].
    destruct (Hdrag eq_refl) as [info ->]. unfold GUI.place. simpl.
    rewrite draw_board_ok;
      [|by apply board_ok_insert; [| |apply Hpiece]].
    eexists. split; [done|]. split_and!; simpl; [|done..].
    by apply board_ok_insert; [| |apply Hpiece].
  - (* on_canvas_click *)
    unfold GUI.on_canvas_click. simpl. rewrite on_board_valid.
    destruct (is_valid_position _ _) eqn:Hv;
      [|eexists; split; [done|]; by split_and!].
    destruct (board !! _) as [info|] eqn:Hl;
      [|eexists; split; [done|]; by split_and!].
    destruct (board_ok_lookup _ _ _ _ Hboard Hl) as [_ Hinfo].
    rewrite draw_board_ok by by apply board_ok_delete.
    destruct (symbol_piece_ok _ Hinfo) as [n ->].
    eexists. split; [done|]. split_and!; simpl.
    + by apply board_ok_delete.
    + by eexists.
    + by intros ? [= <-].
    + by intros ? ? [= <- <-].
  - (* on_release *)
    unfold GUI.on_release. simpl.
    destruct dragging; simpl; [|eexists; split; [done|]; by split_and!].
    destruct (Hdrag eq_refl) as [info ->].
    pose proof (Hpiece _ eq_refl) as Hinfo.
    rewrite on_board_valid. unfold GUI.place, GUI.end_release. simpl.
    destruct (is_valid_position _ _) eqn:Hv; [|destruct start as [[r c]|]]; simpl.
    + rewrite draw_board_ok by by apply board_ok_insert.
      eexists. split; [done|]. split_and!; simpl; [|done..].
      by apply board_ok_insert.
    + rewrite draw_board_ok by (apply board_ok_insert; eauto).
      eexists. split; [done|]. split_and!; simpl; [|done..].
      apply board_ok_insert; eauto.
    + rewrite draw_board_ok by done.
      eexists. split; [done|]. by split_and!.
  - (* clear_board *)
    unfold GUI.clear_board. rewrite draw_board_ok by apply map_Forall_empty.
    eexists. split; [done|]. split_and!; simpl; [|done..].
    apply map_Forall_empty.
Qed.

Lemma mainloop_ok events self :
  Forall from_the_buttons events → gui_ok self →
  ∃ self', GUI.mainloop events self = ([], self') ∧ gui_ok self'.
Proof.
  intros Hevs. revert self.
  induction Hevs as [|ev events Hev _ IH]; intros self Hok; [by eexists|].
  destruct (handle_ok ev self Hev Hok) as (self1 & Hh & Hok1).
  simpl. rewrite Hh. by apply IH.
Qed.

(** On a board of the GUI the analysis raises nothing; its report, when
    there are at least two pieces, is made of the attack pairs and the
    material of the two sides. *)
Lemma analyze_position_Ok (board : gmap (Z * Z) piece_info) :
  board_ok board →
  analyze_position board
  = Ok (if Z.of_nat (size board) <? 2 then None
        else
          let wa := attacks_of "white" "black" board in
          let ba := attacks_of "black" "white" board in
          let wv := material_value "white" board in
          let bv := material_value "black" board in
          Some (mk_report wa ba wv bv
                  (if (wv >? bv) && (wa >=? ba) then WHITE_IS_LIKELY_TO_WIN
                   else if (bv >? wv) && (ba >=? wa) then BLACK_IS_LIKELY_TO_WIN
                   else POSITION_IS_ROUGHLY_EQUAL))).
Proof.
  intros Hok. unfold analyze_position.
  destruct (Z.of_nat (size board) <? 2); [done|].
  pose proof (pieces_of_ok "white" board Hok) as Hw.
  pose proof (pieces_of_ok "black" board Hok) as Hb.
  rewrite group_pieces_Ok by (eapply Forall_impl;
    [by apply map_Forall_to_list | by intros [sq info]]).
  cbn [mbind result_bind fst snd app].
  unfold attacks_of, material_value, pieces_of in *.
  rewrite (count_attacks_Ok _ _ "white" 0 Hw Hb). cbn [mbind result_bind].
  rewrite (count_attacks_Ok _ _ "black" 0 Hb Hw). cbn [mbind result_bind].
  rewrite (total_value_Ok _ 0 Hw). cbn [mbind result_bind].
  rewrite (total_value_Ok _ 0 Hb). cbn [mbind result_bind].
  by rewrite !Z.add_0_l.
Qed.

(** X12: whatever the user does with the mouse, in any order, no handler
    raises, the board only ever holds pieces of the buttons on squares of
    the board, and the analysis of the board raises nothing: it gives no
    report when there are fewer than two pieces and a report otherwise. *)
Theorem gui_never_raises (events : list GUI.event) :
  Forall from_the_buttons events →
  ∃ self report,
    GUI.mainloop events GUI.__init__ = ([], self)
    ∧ gui_ok self
    ∧ analyze_position self.(GUI.board_pieces) = Ok report
    ∧ (report = None ↔ (size self.(GUI.board_pieces) < 2)%nat).
Proof.
  intros Hevs.
  destruct (mainloop_ok events GUI.__init__ Hevs) as (self & Hrun & Hok).
  { split_and!; simpl; [apply map_Forall_empty|done..]. }
  exists self. eexists. split_and!; [done|done| |].
  - apply analyze_position_Ok, Hok.
  - destruct (Z.ltb_spec (Z.of_nat (size (GUI.board_pieces self))) 2);
      split; intros; (done || lia).
Qed.

Lemma gui_never_raises_witness :
  ∃ self report,
    GUI.mainloop
      [GUI.ButtonPress "queen" "white";
       GUI.ButtonRelease 250 130 (GUI.mk_canvas 10 10 480 480);
       GUI.CanvasPress 241 121;
       GUI.CanvasRelease 30 450;
       GUI.ButtonPress "knight" "black";
       GUI.ButtonRelease 700 130 (GUI.mk_canvas 10 10 480 480)]
      GUI.__init__ = ([], self)
    ∧ analyze_position self.(GUI.board_pieces) = Ok report.
Proof.
  destruct (gui_never_raises
    [GUI.ButtonPress "queen" "white";
     GUI.ButtonRelease 250 130 (GUI.mk_canvas 10 10 480 480);
     GUI.CanvasPress 241 121;
     GUI.CanvasRelease 30 450;
     GUI.ButtonPress "knight" "black";
     GUI.ButtonRelease 700 130 (GUI.mk_canvas 10 10 480 480)])
    as (self & report & Hrun & _ & Hreport & _).
  { repeat constructor; listed. }
  by exists self, report.
Defined.

(** X13: a piece picked up from the board and released outside the board
    goes back to the square it was picked up from: in between, the square
    is empty and the drag carries the piece; afterwards the board is the
    board as it was and the drag is over. *)
Theorem pick_up_and_put_back (self : GUI.gui) (x y x' y' : Z) (info : piece_info) :
  board_ok self.(GUI.board_pieces) →
  GUI.on_board (y / 60) (x / 60) = true →
  self.(GUI.board_pieces) !! (y / 60, x / 60) = Some info →
  GUI.on_board (y' / 60) (x' / 60) = false →
  ∃ held released,
    GUI.on_canvas_click x y self = GUI.Returns held
    ∧ held.(GUI.board_pieces) !! (y / 60, x / 60) = None
    ∧ held.(GUI.dragging_piece) = Some info
    ∧ GUI.on_release x' y' held = GUI.Returns released
    ∧ released.(GUI.board_pieces) = self.(GUI.board_pieces)
    ∧ released.(GUI.dragging) = false
    ∧ released.(GUI.dragging_piece) = None.
Proof.
  intros Hok Hon Hl Hoff.
  destruct (board_ok_lookup _ _ _ _ Hok Hl) as [Hv Hinfo].
  destruct (symbol_piece_ok _ Hinfo) as [n Hn].
  eexists _, _. split_and!.
  - unfold GUI.on_canvas_click. cbn zeta. rewrite Hon, Hl.
    rewrite draw_board_ok by by apply board_ok_delete.
    by rewrite Hn.
  - simpl. apply lookup_delete_eq.
  - done.
  - unfold GUI.on_release. cbn. rewrite Hoff.
    unfold GUI.end_release. cbn.
    rewrite draw_board_ok; [done|]. cbn. by rewrite insert_delete_id.
  - cbn. by rewrite insert_delete_id.
  - done.
  - done.
Qed.

Lemma pick_up_and_put_back_witness :
  ∃ held released,
    GUI.on_canvas_click 130 250
      (GUI.mk_gui two_rooks_and_a_knight false None None) = GUI.Returns held
    ∧ GUI.on_release 500 40 held = GUI.Returns released
    ∧ released.(GUI.board_pieces) = two_rooks_and_a_knight.
Proof.
  destruct (pick_up_and_put_back
              (GUI.mk_gui two_rooks_and_a_knight false None None)
              130 250 500 40 (mk_info "knight" "black"))
    as (held & released & Hc & _ & _ & Hr & Hb & _); [listed|reflexivity..|].
  by exists held, released.
Defined.

(** X14: a piece picked up from the board and released on a square of the
    board stands on that square afterwards, whatever stood there before;
    the square it came from is empty unless it is the same square, every
    other square is as it was, and no piece is added: the number of pieces
    is the same when the square was free and one less when it was taken by
    another piece. *)
Theorem pick_up_and_move (self : GUI.gui) (x y x' y' : Z) (info : piece_info) :
  board_ok self.(GUI.board_pieces) →
  GUI.on_board (y / 60) (x / 60) = true →
  self.(GUI.board_pieces) !! (y / 60, x / 60) = Some info →
  GUI.on_board (y' / 60) (x' / 60) = true →
  let source := (y / 60, x / 60) in
  let target := (y' / 60, x' / 60) in
  ∃ held released,
    GUI.on_canvas_click x y self = GUI.Returns held
    ∧ GUI.on_release x' y' held = GUI.Returns released
    ∧ released.(GUI.board_pieces)
      = <[target := info]> (delete source self.(GUI.board_pieces))
    ∧ released.(GUI.board_pieces) !! target = Some info
    ∧ (source ≠ target → released.(GUI.board_pieces) !! source = None)
    ∧ (∀ sq, sq ≠ source → sq ≠ target →
         released.(GUI.board_pieces) !! sq = self.(GUI.board_pieces) !! sq)
    ∧ size released.(GUI.board_pieces)
      = (if decide (source ≠ target ∧ is_Some (self.(GUI.board_pieces) !! target))
         then size self.(GUI.board_pieces) - 1
         else size self.(GUI.board_pieces))%nat.
Proof.
  intros Hok Hon Hl Hon' source target.
  destruct (board_ok_lookup _ _ _ _ Hok Hl) as [Hv Hinfo].
  destruct (symbol_piece_ok _ Hinfo) as [n Hn].
  assert (Hv' : is_valid_position (y' / 60) (x' / 60) = true)
    by by rewrite <- on_board_valid.
  eexists _, _. split_and!.
  - unfold GUI.on_canvas_click. cbn zeta. rewrite Hon, Hl.
    rewrite draw_board_ok by by apply board_ok_delete.
    by rewrite Hn.
  - unfold GUI.on_release. cbn. rewrite Hon'.
    unfold GUI.end_release. cbn.
    rewrite draw_board_ok; [done|]. cbn.
    by apply board_ok_insert; [apply board_ok_delete| |].
  - done.
  - cbn. apply lookup_insert_eq.
  - intros Hne. cbn. fold source target.
    by rewrite lookup_insert_ne, lookup_delete_eq.
  - intros sq Hs Ht. cbn. fold source target.
    by rewrite lookup_insert_ne, lookup_delete_ne.
  - cbn. fold source target.
    assert (Hsize : size (delete source (GUI.board_pieces self))
                    = pred (size (GUI.board_pieces self)))
      by (apply map_size_delete_Some; by eexists).
    assert (Hpos : size (GUI.board_pieces self) ≠ 0%nat)
      by (apply (map_size_ne_0_lookup_2 _ source); by eexists).
    destruct (decide (source = target)) as [Heq|Hne].
    + rewrite decide_False by tauto.
      rewrite <- Heq, insert_delete_eq, map_size_insert_Some; [done|by eexists].
    + destruct (GUI.board_pieces self !! target) as [other|] eqn:Ht.
      * rewrite decide_True by (split; [done|by eexists]).
        rewrite map_size_insert_Some; [lia|].
        rewrite lookup_delete_ne by done. by eexists.
      * rewrite decide_False by (intros [_ [? ?]]; done).
        rewrite map_size_insert_None; [lia|].
        by rewrite lookup_delete_ne.
Qed.

Lemma pick_up_and_move_witness :
  ∃ held released,
    GUI.on_canvas_click 10 10
      (GUI.mk_gui two_rooks_and_a_knight false None None) = GUI.Returns held
    ∧ GUI.on_release 130 250 held = GUI.Returns released
    ∧ released.(GUI.board_pieces) !! (4, 2) = Some (mk_info "rook" "white")
    ∧ size released.(GUI.board_pieces) = 2%nat.
Proof.
  destruct (pick_up_and_move
              (GUI.mk_gui two_rooks_and_a_knight false None None)
              10 10 130 250 (mk_info "rook" "white"))
    as (held & released & Hc & Hr & _ & Ht & _ & _ & Hsize);
    [listed|reflexivity..|].
  exists held, released. split_and!; [done..|].
  rewrite Hsize. vm_compute. reflexivity.
Defined.

Lemma on_board_pixels x y :
  GUI.on_board (y / 60) (x / 60) = true ↔ 0 ≤ x < 480 ∧ 0 ≤ y < 480.
Proof.
  unfold GUI.on_board. rewrite !andb_true_iff, !Z.leb_le, !Z.ltb_lt.
  Z.to_euclidean_division_equations. lia.
Qed.

(** X15: a piece dragged from a button and dropped lands on the square
    under the pointer, 60 pixels wide, replacing what stood there, when the
    pointer is over the canvas and over the 480 by 480 pixels of the
    board; dropped anywhere else it is discarded and the board is as it
    was.  Either way the drag is over. *)
Theorem drag_from_button_and_drop (self : GUI.gui) (piece color : string)
    (x_root y_root : Z) (cv : GUI.canvas) :
  board_ok self.(GUI.board_pieces) →
  piece ∈ GUI.pieces →
  color ∈ GUI.colors →
  let canvas_x := x_root - cv.(GUI.winfo_rootx) in
  let canvas_y := y_root - cv.(GUI.winfo_rooty) in
  ∃ held dropped,
    GUI.start_drag_from_button piece color self = GUI.Returns held
    ∧ GUI.drop_piece x_root y_root cv held = GUI.Returns dropped
    ∧ dropped.(GUI.dragging) = false
    ∧ dropped.(GUI.dragging_piece) = None
    ∧ dropped.(GUI.board_pieces)
      = if decide (canvas_x ≤ cv.(GUI.winfo_width)
                   ∧ canvas_y ≤ cv.(GUI.winfo_height)
                   ∧ 0 ≤ canvas_x < 480 ∧ 0 ≤ canvas_y < 480)
        then <[(canvas_y / 60, canvas_x / 60) := mk_info piece color]>
               self.(GUI.board_pieces)
        else self.(GUI.board_pieces).
Proof.
  intros Hok Hk Hc canvas_x canvas_y.
  assert (Hinfo : piece_ok (mk_info piece color)).
  { split; simpl.
    - revert Hk. unfold GUI.pieces, supported_kinds.
      rewrite !elem_of_cons, !elem_of_nil. tauto.
    - revert Hc. unfold GUI.colors. rewrite !elem_of_cons, elem_of_nil. tauto. }
  destruct (symbol_piece_ok _ Hinfo) as [n Hn]. simpl in Hn.
  unfold GUI.start_drag_from_button. rewrite Hn.
  eexists. cut (∀ held, held = GUI.mk_gui self.(GUI.board_pieces) true
                           (Some (mk_info piece color))
                           self.(GUI.drag_start_board_pos) →
    ∃ dropped, GUI.drop_piece x_root y_root cv held = GUI.Returns dropped
      ∧ dropped.(GUI.dragging) = false
      ∧ dropped.(GUI.dragging_piece) = None
      ∧ dropped.(GUI.board_pieces)
        = if decide (canvas_x ≤ cv.(GUI.winfo_width)
                     ∧ canvas_y ≤ cv.(GUI.winfo_height)
                     ∧ 0 ≤ canvas_x < 480 ∧ 0 ≤ canvas_y < 480)
          then <[(canvas_y / 60, canvas_x / 60) := mk_info piece color]>
                 self.(GUI.board_pieces)
          else self.(GUI.board_pieces)).
  { intros Hcut. destruct (Hcut _ eq_refl) as (dropped & ?).
    exists dropped. by split. }
  intros held ->. unfold GUI.drop_piece.
  cbn [GUI.dragging GUI.dragging_piece negb]. fold canvas_x canvas_y.
  destruct (_ && _) eqn:Hcanvas.
  - apply andb_true_iff in Hcanvas as [[[H1 H2]%andb_true_iff H3]%andb_true_iff H4].
    apply Z.leb_le in H1, H2, H3, H4.
    destruct (GUI.on_board (canvas_y / 60) (canvas_x / 60)) eqn:Hon.
    + pose proof Hon as Hpix%on_board_pixels.
      rewrite on_board_valid in Hon.
      unfold GUI.place. simpl.
      rewrite draw_board_ok by by apply board_ok_insert.
      eexists. split_and!; [done..|]. simpl.
      by rewrite decide_True by lia.
    + assert (¬ (0 ≤ canvas_x < 480 ∧ 0 ≤ canvas_y < 480)) as Hpix
        by (rewrite <- on_board_pixels; congruence).
      eexists. split_and!; [done..|]. simpl.
      by rewrite decide_False by tauto.
  - eexists. split_and!; [done..|]. simpl.
    rewrite decide_False; [done|].
    intros (? & ? & ? & ?).
    rewrite !andb_false_iff, !Z.leb_gt in Hcanvas. lia.
Qed.

Lemma drag_from_button_and_drop_witness :
  ∃ held dropped,
    GUI.start_drag_from_button "queen" "white" GUI.__init__ = GUI.Returns held
    ∧ GUI.drop_piece 490 130 (GUI.mk_canvas 10 10 480 480) held = GUI.Returns dropped
    ∧ dropped.(GUI.board_pieces) = ∅.
Proof.
  destruct (drag_from_button_and_drop GUI.__init__ "queen" "white" 490 130
              (GUI.mk_canvas 10 10 480 480))
    as (held & dropped & Hs & Hd & _ & _ & Hb); [listed..|].
  by exists held, dropped.
Defined.

(** ** More on the analysis of a position *)

Lemma filter_none {A} (P : A → Prop) `{∀ x, Decision (P x)} (l : list A) :
  Forall (λ x, ¬ P x) l → filter P l = [].
Proof.
  induction 1 as [|x l Hx _ IH]; [done|].
  by rewrite filter_cons_False.
Qed.

Lemma attack_pairs_nil_r attackers : attack_pairs attackers [] = [].
Proof. unfold attack_pairs. by induction attackers. Qed.

Lemma value_of_ge (it : item) : item_ok it → 3 ≤ value_of it.
Proof.
  intros (_ & Hk & _). unfold value_of. revert Hk.
  unfold supported_kinds. rewrite !elem_of_cons, elem_of_nil.
  intros Hk. destruct_or!; try done; rewrite Hk; by vm_compute.
Qed.

Lemma total_value_ge (pieces : list item) :
  Forall item_ok pieces →
  3 * Z.of_nat (length pieces) ≤ foldr Z.add 0 (value_of <$> pieces).
Proof.
  induction 1 as [|it pieces Hit%value_of_ge _ IH]; [done|].
  cbn [length foldr fmap list_fmap]. lia.
Qed.

Lemma pieces_of_ok_all board : board_ok board → Forall item_ok (map_to_list board).
Proof.
  intros Hok%map_Forall_to_list. eapply Forall_impl; [exact Hok|].
  by intros [sq info].
Qed.

(** When every piece has the colour [side], the pieces of [side] are all
    the pieces and the other side has none. *)
Lemma one_side_pieces (board : gmap (Z * Z) piece_info) (side other : string) :
  side ≠ other →
  map_Forall (λ _ info, info.(color) = side) board →
  pieces_of side board = map_to_list board ∧ pieces_of other board = [].
Proof.
  intros Hne Hall%map_Forall_to_list. unfold pieces_of. split.
  - apply filter_Forall. eapply Forall_impl; [exact Hall|]. by intros [sq info].
  - apply filter_none. eapply Forall_impl; [exact Hall|].
    intros [sq info]. simpl. congruence.
Qed.

(** X16: a position of at least two pieces, all of one colour, is
    predicted to be won by that colour: nobody attacks anybody and the
    other side has no material. *)
Theorem analyze_position_one_side (board : gmap (Z * Z) piece_info) :
  board_ok board →
  (2 ≤ size board)%nat →
  (map_Forall (λ _ info, info.(color) = "white") board →
   ∃ r, analyze_position board = Ok (Some r)
     ∧ winner r = WHITE_IS_LIKELY_TO_WIN
     ∧ white_attacks r = 0 ∧ black_attacks r = 0 ∧ black_value r = 0)
  ∧ (map_Forall (λ _ info, info.(color) = "black") board →
     ∃ r, analyze_position board = Ok (Some r)
       ∧ winner r = BLACK_IS_LIKELY_TO_WIN
       ∧ white_attacks r = 0 ∧ black_attacks r = 0 ∧ white_value r = 0).
Proof.
  intros Hok Hsize. rewrite (analyze_position_Ok board Hok).
  destruct (Z.ltb_spec (Z.of_nat (size board)) 2) as [?|_]; [lia|].
  pose proof (total_value_ge _ (pieces_of_ok_all board Hok)) as Hval.
  rewrite length_map_to_list in Hval.
  unfold attacks_of, material_value. split; intros Hall.
  - destruct (one_side_pieces board "white" "black") as [-> ->]; [done..|].
    rewrite attack_pairs_nil_r. simpl.
    eexists. split; [reflexivity|]. simpl. split_and!; [|done..].
    destruct (Z.gtb_spec (foldr Z.add 0 (value_of <$> map_to_list board)) 0);
      [done|lia].
  - destruct (one_side_pieces board "black" "white") as [-> ->]; [done..|].
    rewrite attack_pairs_nil_r. simpl.
    eexists. split; [reflexivity|]. simpl. split_and!; [|done..].
    destruct (Z.gtb_spec 0 (foldr Z.add 0 (value_of <$> map_to_list board)));
      [lia|].
    destruct (Z.gtb_spec (foldr Z.add 0 (value_of <$> map_to_list board)) 0);
      [done|lia].
Qed.

Lemma analyze_position_one_side_witness :
  ∃ r, analyze_position
         (<[(0, 0) := mk_info "rook" "white"]> {[(0, 7) := mk_info "queen" "white"]})
       = Ok (Some r)
    ∧ winner r = WHITE_IS_LIKELY_TO_WIN.
Proof.
  destruct (analyze_position_one_side
              (<[(0, 0) := mk_info "rook" "white"]> {[(0, 7) := mk_info "queen" "white"]}))
    as [Hwhite _]; [listed | vm_compute; lia |].
  destruct Hwhite as (r & Hr & Hw & _); [listed|].
  by exists r.
Defined.

Lemma supported_lower kind : kind ∈ supported_kinds → lower kind = kind.
Proof.
  unfold supported_kinds. rewrite !elem_of_cons, elem_of_nil.
  intros Hk. destruct_or!; try done; by subst.
Qed.

Lemma attacks_reaches (a t : item) :
  is_valid_position a.1.1 a.1.2 = true →
  is_valid_position t.1.1 t.1.2 = true →
  attacks a t = reaches (lower a.2.(piece)) a.1 t.1.
Proof.
  destruct a as [[ar ac] ai], t as [[tr tc] ti]. simpl. intros Ha Ht.
  unfold attacks. simpl. apply bool_decide_eq_true_iff_eq.
  rewrite on_board_moves_dispatch. by apply dispatch_reaches.
Qed.

(** The two sides of a board with one white and one black piece. *)
Lemma one_piece_each (wsq bsq : Z * Z) (wk bk : string) :
  wsq ≠ bsq →
  let board : gmap (Z * Z) piece_info :=
    <[wsq := mk_info wk "white"]> {[bsq := mk_info bk "black"]} in
  pieces_of "white" board = [(wsq, mk_info wk "white")]
  ∧ pieces_of "black" board = [(bsq, mk_info bk "black")]
  ∧ size board = 2%nat.
Proof.
  intros Hne board.
  assert (Hlist : map_to_list board
                  ≡ₚ [(wsq, mk_info wk "white"); (bsq, mk_info bk "black")]).
  { unfold board. rewrite map_to_list_insert by by apply lookup_singleton_ne.
    by rewrite map_to_list_singleton. }
  split_and!.
  - apply Permutation_singleton_r. unfold pieces_of. by rewrite Hlist.
  - apply Permutation_singleton_r. unfold pieces_of. by rewrite Hlist.
  - by rewrite <- length_map_to_list, Hlist.
Qed.

(** X17: with one white and one black piece on the board, the analysis of
    the GUI never contradicts the verdict of the two-piece game: the side
    it predicts to win is the side [determine_winner] names, and where
    [determine_winner] says draw it calls the position roughly equal. *)
Theorem analysis_agrees_with_verdict (wk bk : string) (wr wc br bc : Z) :
  wk ∈ supported_kinds →
  bk ∈ supported_kinds →
  is_valid_position wr wc = true →
  is_valid_position br bc = true →
  (wr, wc) ≠ (br, bc) →
  let board : gmap (Z * Z) piece_info :=
    <[(wr, wc) := mk_info wk "white"]> {[(br, bc) := mk_info bk "black"]} in
  let game := __init__ wk (square_name (wr, wc)) bk (square_name (br, bc)) in
  ∃ r, analyze_position board = Ok (Some r)
    ∧ (winner r = WHITE_IS_LIKELY_TO_WIN →
       determine_winner game = Ok ("white " +:+ wk +:+ " wins"))
    ∧ (winner r = BLACK_IS_LIKELY_TO_WIN →
       determine_winner game = Ok ("black " +:+ bk +:+ " wins"))
    ∧ (determine_winner game = Ok "draw" →
       winner r = POSITION_IS_ROUGHLY_EQUAL).
Proof.
  intros Hwk Hbk Hw Hb Hne board game.
  assert (Hok : board_ok board).
  { unfold board. apply board_ok_insert; [|done|by split; [|left]].
    apply map_Forall_singleton. split_and!; [done..|by right]. }
  destruct (one_piece_each (wr, wc) (br, bc) wk bk Hne) as (Hws & Hbs & Hsize).
  fold board in Hws, Hbs, Hsize.
  rewrite (analyze_position_Ok board Hok), Hsize.
  unfold attacks_of, material_value. rewrite Hws, Hbs. unfold attack_pairs.
  cbn [mbind list_bind app fmap list_fmap foldr Z.ltb Z.of_nat Pos.of_succ_nat
       Pos.succ Z.compare Pos.compare Pos.compare_cont].
  rewrite !attacks_reaches by done. cbn [fst snd piece].
  unfold game. rewrite determine_winner_init.
  rewrite !(supported_lower wk), !(supported_lower bk) by done.
  rewrite !lower_square_name, !can_attack_reaches by done.
  rewrite !(supported_lower wk), !(supported_lower bk) by done.
  destruct (getitem_supported _ Hwk) as (wv & -> & Hwv).
  destruct (getitem_supported _ Hbk) as (bv & -> & Hbv).
  unfold value_of. cbn [snd piece]. rewrite Hwv, Hbv.
  cbn [mbind result_bind default from_option].
  rewrite !Z.add_0_r.
  eexists. split; [reflexivity|].
  cbn [winner].
  unfold id.
  destruct (Z.gtb_spec wv bv), (Z.gtb_spec bv wv); try lia;
    destruct (reaches wk (wr, wc) (br, bc)), (reaches bk (br, bc) (wr, wc));
    simpl; split_and!; intros Heq; first [done | congruence].
Qed.

Lemma analysis_agrees_with_verdict_witness :
  ∃ r, analyze_position
         (<[(0, 0) := mk_info "queen" "white"]> {[(7, 1) := mk_info "knight" "black"]})
       = Ok (Some r)
    ∧ (winner r = WHITE_IS_LIKELY_TO_WIN →
       determine_winner (__init__ "queen" "a1" "knight" "b8")
       = Ok "white queen wins").
Proof.
  destruct (analysis_agrees_with_verdict "queen" "knight" 0 0 7 1)
    as (r & Hr & Hwhite & _); [listed | listed | reflexivity | reflexivity | done |].
  by exists r.
Defined.

(** The converse does not hold: the only attacker wins the two-piece game
    whatever its value, but is not predicted to win by the analysis. *)
Example sole_attacker_of_lower_value :
  determine_winner (__init__ "queen" "e4" "knight" "f6") = Ok "black knight wins"
  ∧ analyze_position
      (<[(3, 4) := mk_info "queen" "white"]> {[(5, 5) := mk_info "knight" "black"]})
    = Ok (Some (mk_report 0 1 9 3 POSITION_IS_ROUGHLY_EQUAL)).
Proof. split; vm_compute; reflexivity. Qed.

(** ** More on the conversion *)

Lemma ord_inj c1 c2 : ord c1 = ord c2 → c1 = c2.
Proof. intros H. by rewrite <- (chr_ord c1), <- (chr_ord c2), H. Qed.

Lemma int_char_Ok c d :
  int_char c = Ok d → ord c = d + 48 ∧ lower_char c = c.
Proof.
  rewrite int_char_digit. unfold is_decimal_digit.
  change (ord "0") with 48. change (ord "9") with 57.
  destruct (Z.leb_spec 48 (ord c)), (Z.leb_spec (ord c) 57); simpl; try done.
  intros [= <-]. split; [lia|].
  unfold lower_char.
  destruct (Z.leb_spec 65 (ord c)), (Z.leb_spec 192 (ord c)); simpl; (done || lia).
Qed.

(** X18: the conversion tells ASCII positions apart up to the case of the
    file letter: two ASCII strings it accepts, on the board or off it,
    give the same coordinates only if they are the same string once
    lower-cased. *)
Theorem position_to_coords_injective (p q : string) (sq : Z * Z) :
  is_ascii p = true →
  is_ascii q = true →
  position_to_coords p = Ok sq →
  position_to_coords q = Ok sq →
  lower p = lower q.
Proof.
  intros _ _.
  destruct p as [|pf [|pr [|? ?]]]; try done.
  destruct q as [|qf [|qr [|? ?]]]; try done. simpl.
  destruct (int_char pr) as [pd|] eqn:Hp; [|done].
  destruct (int_char qr) as [qd|] eqn:Hq; [|done]. simpl.
  intros <- [= Hrow Hcol].
  apply int_char_Ok in Hp as [Hpo ->], Hq as [Hqo ->].
  f_equal; [|f_equal]; apply ord_inj; lia.
Qed.

Lemma position_to_coords_injective_witness : lower "E4" = lower "e4".
Proof.
  apply (position_to_coords_injective "E4" "e4" (3, 4)); reflexivity.
Defined.
